(** * ResQlink backend: the alert and test-message routes of [backend/server.js]

    A shallow embedding of the Express handlers of [src/backend/server.js]
    together with the properties its specification states about them.

    Conventions of the embedding:
    - a JavaScript string is the list of its UTF-16 code units ([jsstring]);
    - a value parsed from a JSON body is a [JsValue];
    - a JavaScript number is an IEEE-754 double ([spec_float]);
    - the in-memory [recentAlerts] Map is a [gmap] from keys to insertion
      times (the claims never observe its iteration order);
    - everything the routes obtain from the runtime or from Twilio (the
      clock, [toFixed], [toLocaleString], [client.messages.create], ...) is
      a field of the class [Runtime];
    - a handler is a function from the server state to a result and a new
      state, an exception being a result of its own; the state carries the
      trace of the calls to the provider and of the pauses;
    - a handler is followed from its first line to its answer. The part of
      the alert route that reads and writes [recentAlerts] contains no
      [await], so no other request can run in the middle of it;
    - [console.error], the rate limiter and the other middleware are left
      out. *)

From Stdlib Require Import ZArith NArith List Bool Lia String Ascii SpecFloat.
From stdpp Require Import base gmap list strings fin_maps.

Local Open Scope N_scope.

(** ** JavaScript strings *)

Abbreviation jsstring := (list N).

Definition chr (a : ascii) : N := N_of_ascii a.

(** The code units of an ASCII literal of the source. *)
Definition lit (s : string) : jsstring := map chr (list_ascii_of_string s).

(** [\d]: the ten ASCII digits. *)
Definition isDigit (c : N) : bool := (48 <=? c) && (c <=? 57).

(** [\s]: the WhiteSpace and LineTerminator code points of ECMAScript. *)
Definition isWhiteSpace (c : N) : bool :=
  ((9 <=? c) && (c <=? 13)) || (c =? 32) || (c =? 160) || (c =? 5760)
  || ((8192 <=? c) && (c <=? 8202)) || (c =? 8232) || (c =? 8233)
  || (c =? 8239) || (c =? 8287) || (c =? 12288) || (c =? 65279).

(** ** The fragment of RegExp the source uses *)

Inductive atom : Type :=
  | Lit (c : N)            (* an escaped or plain character *)
  | Range (lo hi : N)      (* [lo-hi] *)
  | Digit                  (* \d *)
  | NonDigit               (* \D *)
  | Space.                 (* \s *)

Inductive regex : Type :=
  | Atom (a : atom)
  | Bol                    (* ^ *)
  | Eol                    (* $ *)
  | Seq (r1 r2 : regex)
  | Opt (r : regex)        (* r? *)
  | Rep (r : regex) (lo hi : nat).   (* r{lo,hi} *)

Definition atom_matches (a : atom) (c : N) : bool :=
  match a with
  | Lit x => c =? x
  | Range lo hi => (lo <=? c) && (c <=? hi)
  | Digit => isDigit c
  | NonDigit => negb (isDigit c)
  | Space => isWhiteSpace c
  end.

(** A match state is the index reached and the input still to read. *)
Definition MatchState : Type := (nat * jsstring)%type.
Definition Continuation : Type := nat -> jsstring -> option MatchState.
Definition Matcher : Type := nat -> jsstring -> Continuation -> option MatchState.

(** The greedy bounded repetition of ECMAScript's RepeatMatcher (its
    empty-match check is omitted: every repeated body here consumes a
    character). *)
Definition RepeatMatcher (m : Matcher) : nat -> nat -> Matcher :=
  fix go (lo hi : nat) (i : nat) (rest : jsstring) (k : Continuation) :=
    match hi with
    | O => match lo with O => k i rest | S _ => None end
    | S hi' =>
        match lo with
        | O =>
            match m i rest (fun i' rest' => go O hi' i' rest' k) with
            | Some z => Some z
            | None => k i rest
            end
        | S lo' => m i rest (fun i' rest' => go lo' hi' i' rest' k)
        end
    end.

(** The backtracking matcher, in the continuation style of the language
    specification. *)
Fixpoint compile (r : regex) : Matcher :=
  fun i rest k =>
    match r with
    | Atom a =>
        match rest with
        | c :: rest' => if atom_matches a c then k (S i) rest' else None
        | [] => None
        end
    | Bol => if Nat.eqb i 0 then k i rest else None
    | Eol => match rest with [] => k i rest | _ :: _ => None end
    | Seq r1 r2 => compile r1 i rest (fun i' rest' => compile r2 i' rest' k)
    | Opt r1 =>
        match compile r1 i rest k with
        | Some z => Some z
        | None => k i rest
        end
    | Rep r1 lo hi => RepeatMatcher (compile r1) lo hi i rest k
    end.

(** One match attempt at index [i]. *)
Definition regex_match_at (r : regex) (i : nat) (rest : jsstring) : option MatchState :=
  compile r i rest (fun i' rest' => Some (i', rest')).

(** [RegExp.prototype.exec] without the g and y flags: the first index, from
    left to right, at which the pattern matches. *)
Fixpoint regex_exec_from (r : regex) (i : nat) (rest : jsstring) : option MatchState :=
  match regex_match_at r i rest with
  | Some z => Some z
  | None =>
      match rest with
      | [] => None
      | _ :: rest' => regex_exec_from r (S i) rest'
      end
  end.

(** [r.test(s)]. *)
Definition regex_test (r : regex) (s : jsstring) : bool :=
  match regex_exec_from r 0 s with Some _ => true | None => false end.

(** [s.replace(r, by)] for a pattern with the g flag and a replacement
    without dollar patterns. [skip] counts the code units of the current
    match that remain to be dropped. *)
Fixpoint replace_from (r : regex) (by_ : jsstring) (i : nat) (rest : jsstring)
    (skip : nat) : jsstring :=
  match skip with
  | S skip' =>
      match rest with
      | [] => []
      | _ :: rest' => replace_from r by_ (S i) rest' skip'
      end
  | O =>
      match regex_match_at r i rest with
      | Some (i', _) =>
          by_ ++
          match rest with
          | [] => []
          | c :: rest' =>
              if Nat.eqb i' i then c :: replace_from r by_ (S i) rest' O
              else replace_from r by_ (S i) rest' (i' - i - 1)
          end
      | None =>
          match rest with
          | [] => []
          | c :: rest' => c :: replace_from r by_ (S i) rest' O
          end
      end
  end.

Definition replace_all (r : regex) (by_ : jsstring) (s : jsstring) : jsstring :=
  replace_from r by_ 0 s 0.

(** [s.startsWith(p)]. *)
Fixpoint startsWith (s p : jsstring) : bool :=
  match p, s with
  | [], _ => true
  | _ :: _, [] => false
  | x :: p', c :: s' => (c =? x) && startsWith s' p'
  end.

(** ** PhoneFormatter: [validatePhoneNumber] and [formatPhoneNumber] on strings *)

(** [/^\+?[1-9]\d{1,14}$/] *)
Definition e164Regex : regex :=
  Seq Bol
    (Seq (Opt (Atom (Lit (chr "+"))))
       (Seq (Atom (Range (chr "1") (chr "9")))
          (Seq (Rep (Atom Digit) 1 14) Eol))).

Definition validatePhoneNumber_string (phone : jsstring) : bool :=
  regex_test e164Regex (replace_all (Atom Space) [] phone).

Definition formatPhoneNumber_string (phone : jsstring) : jsstring :=
  let cleaned := replace_all (Atom NonDigit) [] phone in
  if negb (startsWith cleaned (lit "+")) then
    let cleaned :=
      if Nat.eqb (length cleaned) 10 then lit "1" ++ cleaned else cleaned in
    lit "+" ++ cleaned
  else cleaned.


(** ** JSON values *)

(** What [express.json()] hands to a route. The fields of an object are its
    own properties, every name at most once. *)
#[warnings="-register-all"] Inductive JsValue : Type :=
  | JUndefined
  | JNull
  | JBool (b : bool)
  | JNum (x : spec_float)
  | JStr (s : jsstring)
  | JArr (elems : list JsValue)
  | JObj (fields : list (jsstring * JsValue)).

(** ToBoolean. *)
Definition truthy (v : JsValue) : bool :=
  match v with
  | JUndefined | JNull => false
  | JBool b => b
  | JNum (S754_zero _) | JNum S754_nan => false
  | JNum _ => true
  | JStr [] => false
  | JStr (_ :: _) => true
  | JArr _ | JObj _ => true
  end.

(** [a || b] on values. *)
Definition or_else (a b : JsValue) : JsValue := if truthy a then a else b.

Definition isArray (v : JsValue) : bool :=
  match v with JArr _ => true | _ => false end.

Definition elements (v : JsValue) : list JsValue :=
  match v with JArr elems => elems | _ => [] end.

Definition is_number (v : JsValue) : bool :=
  match v with JNum _ => true | _ => false end.

Fixpoint assoc (k : jsstring) (fields : list (jsstring * JsValue)) : JsValue :=
  match fields with
  | [] => JUndefined
  | (k', v) :: fields' => if decide (k' = k) then v else assoc k fields'
  end.

(** [v.k] for a value that is neither [null] nor [undefined], and a name [k]
    that no prototype defines (lat, lng, phone, name, contacts, ...): the
    own property, or [undefined]. *)
Definition prop (v : JsValue) (k : string) : JsValue :=
  match v with
  | JObj fields => assoc (lit k) fields
  | _ => JUndefined
  end.

(** [obj[k] = v]: an existing property keeps its place. *)
Fixpoint obj_set (k : jsstring) (v : JsValue) (fields : list (jsstring * JsValue))
    : list (jsstring * JsValue) :=
  match fields with
  | [] => [(k, v)]
  | (k', v') :: fields' =>
      if decide (k' = k) then (k, v) :: fields' else (k', v') :: obj_set k v fields'
  end.

Definition own_fields (v : JsValue) : list (jsstring * JsValue) :=
  match v with JObj fields => fields | _ => [] end.

(** The object literal [{ ...fields, ...v }]. *)
Definition spread (fields : list (jsstring * JsValue)) (v : JsValue)
    : list (jsstring * JsValue) :=
  fold_left (fun acc kv => obj_set (fst kv) (snd kv) acc) (own_fields v) fields.

(** [r => r.success], the callback of the two [filter] calls. *)
Definition succeeded (r : JsValue) : bool := truthy (prop r "success").

Definition is_object (v : JsValue) : bool :=
  match v with JArr _ | JObj _ => true | _ => false end.

Definition nullish (v : JsValue) : bool :=
  match v with JUndefined | JNull => true | _ => false end.

(** Decimal digits of a count ([Number::toString] on a small natural). *)
Fixpoint uint_units (d : Decimal.uint) : jsstring :=
  match d with
  | Decimal.Nil => []
  | Decimal.D0 d => 48 :: uint_units d
  | Decimal.D1 d => 49 :: uint_units d
  | Decimal.D2 d => 50 :: uint_units d
  | Decimal.D3 d => 51 :: uint_units d
  | Decimal.D4 d => 52 :: uint_units d
  | Decimal.D5 d => 53 :: uint_units d
  | Decimal.D6 d => 54 :: uint_units d
  | Decimal.D7 d => 55 :: uint_units d
  | Decimal.D8 d => 56 :: uint_units d
  | Decimal.D9 d => 57 :: uint_units d
  end.

Definition count_toString (n : nat) : jsstring := uint_units (Nat.to_uint n).

(** ** Results, exceptions, effects *)

Inductive Exception : Type :=
  | TypeError                         (* raised by the language itself *)
  | ProviderError (message : JsValue). (* the Error Twilio rejected with *)

Inductive Completion (A : Type) : Type :=
  | Normal (a : A)
  | Throw (e : Exception).
Arguments Normal {A} a.
Arguments Throw {A} e.

(** What [client.messages.create] settles to. *)
Inductive CreateResult : Type :=
  | Resolved (sid status : JsValue)
  | Rejected (message : JsValue).

(** The observable effects of a handler, in the order they happen. *)
Inductive Event : Type :=
  | MessagesCreate (body from to : jsstring)
  | Timeout (ms : Z).

Record Response : Type := mkResponse { status : Z; json : JsValue }.

Definition error_body (msg : string) : JsValue :=
  JObj [(lit "error", JStr (lit msg))].

Definition five_minutes : Z := 5 * 60 * 1000.

(** The entries the clean-up loop leaves: it visits every entry of the Map
    and deletes those inserted before [fiveMinutesAgo]. *)
Definition sweep_entries (m : gmap jsstring Z) (fiveMinutesAgo : Z) : gmap jsstring Z :=
  map_fold
    (fun key time acc => if bool_decide (time < fiveMinutesAgo)%Z then delete key acc else acc)
    m m.

(** The texts of the two messages, cut at their interpolations. *)
Definition nl : jsstring := [10].

Definition alert_head : jsstring :=
  [55357; 57000] ++ lit " *EMERGENCY ALERT* " ++ [55357; 57000] ++ nl ++ nl
  ++ lit "An accident has been detected for *".

Definition alert_location : jsstring :=
  lit "*!" ++ nl ++ nl ++ [55357; 56525] ++ lit " *Location:* ".

Definition alert_time : jsstring :=
  nl ++ [55357; 56656] ++ lit " *Time:* ".

Definition alert_tail : jsstring :=
  nl ++ nl ++ [9888; 65039]
  ++ lit " *IMPORTANT:* This is an automated emergency alert. Please respond or dispatch help immediately!"
  ++ nl ++ nl ++ lit "---" ++ nl ++ lit "Sent via Smart Accident Alert System".

Definition test_text : jsstring :=
  [55358; 56810] ++ lit " *Test Message*" ++ nl ++ nl
  ++ lit "This is a test from the Smart Accident Alert System." ++ nl ++ nl
  ++ lit "If you receive this, your WhatsApp integration is working correctly!"
  ++ nl ++ nl ++ [9989] ++ lit " System Status: Operational".

(** ** What the runtime and the provider supply *)

Class Runtime : Type := {
  (** The world outside the process: the clock and the messaging provider. *)
  World : Type;
  (** [Date.now()], in epoch milliseconds. *)
  Date_now : World -> Z * World;
  (** [await client.messages.create({body, from, to})]; a rejection carries
      the [message] of the Error it rejects with. *)
  messages_create : jsstring -> jsstring -> jsstring -> World -> CreateResult * World;
  (** [await new Promise(resolve => setTimeout(resolve, ms))]. *)
  setTimeout_elapsed : Z -> World -> World;
  (** [process.env.TWILIO_WHATSAPP_NUMBER]. *)
  TWILIO_WHATSAPP_NUMBER : option jsstring;
  (** [x.toFixed(digits)]. *)
  Number_toFixed : spec_float -> nat -> jsstring;
  (** ToString on a number. *)
  Number_toString : spec_float -> jsstring;
  (** ToString on an array or object; [None] when the conversion raises a
      TypeError. *)
  Object_toString : JsValue -> option jsstring;
  (** ToPrimitive on an array or object, as the Date constructor applies
      it; [None] when it raises a TypeError. *)
  Object_toPrimitive : JsValue -> option JsValue;
  (** [new Date(v).toLocaleString()] for a primitive [v]. *)
  Date_toLocaleString : JsValue -> jsstring;
  (** [new Date(t).toISOString()] for a clock reading [t]. *)
  Date_toISOString : Z -> jsstring;
  (** The [message] of the TypeError the engine raises when [.replace] is
      called on a value [v] that is not a string. *)
  TypeError_message : JsValue -> jsstring
}.

(** ** The server *)

Section Server.

Context {rt : Runtime}.

(** *** State and the handler monad *)

Record ServerState : Type := mkState {
  recentAlerts : gmap jsstring Z;   (* the module-level Map *)
  world : World;
  trace : list Event                (* effects so far, oldest first *)
}.

Definition M (A : Type) : Type := ServerState -> Completion A * ServerState.

Definition ret {A} (a : A) : M A := fun st => (Normal a, st).

Definition throw {A} (e : Exception) : M A := fun st => (Throw e, st).

Definition bind {A B} (m : M A) (f : A -> M B) : M B :=
  fun st =>
    match m st with
    | (Normal a, st') => f a st'
    | (Throw e, st') => (Throw e, st')
    end.

Definition try_catch {A} (m : M A) (handler : Exception -> M A) : M A :=
  fun st =>
    match m st with
    | (Normal a, st') => (Normal a, st')
    | (Throw e, st') => handler e st'
    end.

Notation "'let*' x ':=' m 'in' k" := (bind m (fun x => k))
  (at level 10, x name, m at level 100, k at level 200).
Notation "m ';;' k" := (bind m (fun _ => k))
  (at level 100, k at level 200, right associativity).

Definition lift_option {A} (o : option A) : M A :=
  match o with Some a => ret a | None => throw TypeError end.

Definition now : M Z :=
  fun st =>
    let (t, w) := Date_now (world st) in
    (Normal t, mkState (recentAlerts st) w (trace st)).

Definition delay (ms : Z) : M unit :=
  fun st =>
    (Normal tt,
     mkState (recentAlerts st) (setTimeout_elapsed ms (world st))
       (trace st ++ [Timeout ms])).

Definition create (body from to : jsstring) : M (JsValue * JsValue) :=
  fun st =>
    let (r, w) := messages_create body from to (world st) in
    let st' := mkState (recentAlerts st) w (trace st ++ [MessagesCreate body from to]) in
    match r with
    | Resolved sid status_ => (Normal (sid, status_), st')
    | Rejected message => (Throw (ProviderError message), st')
    end.

Definition recentAlerts_has (key : jsstring) : M bool :=
  fun st => (Normal (bool_decide (is_Some (recentAlerts st !! key))), st).

Definition recentAlerts_set (key : jsstring) (time : Z) : M unit :=
  fun st => (Normal tt, mkState (<[key := time]> (recentAlerts st)) (world st) (trace st)).

Definition recentAlerts_sweep (fiveMinutesAgo : Z) : M unit :=
  fun st =>
    (Normal tt,
     mkState (sweep_entries (recentAlerts st) fiveMinutesAgo) (world st) (trace st)).

(** *** Conversions that can raise *)

(** ToString, as a template literal applies it; [None] is a TypeError. *)
Definition ToString (v : JsValue) : option jsstring :=
  match v with
  | JUndefined => Some (lit "undefined")
  | JNull => Some (lit "null")
  | JBool true => Some (lit "true")
  | JBool false => Some (lit "false")
  | JNum x => Some (Number_toString x)
  | JStr s => Some s
  | JArr _ | JObj _ => Object_toString v
  end.

(** [v.toFixed(digits)] where [v] has passed [typeof v === 'number']. *)
Definition toFixed (v : JsValue) (digits : nat) : option jsstring :=
  match v with
  | JNum x => Some (Number_toFixed x digits)
  | _ => None
  end.

(** [const { ... } = body]: the pattern needs a value that is neither
    [null] nor [undefined]. *)
Definition destructure (body : JsValue) : M unit :=
  if nullish body then throw TypeError else ret tt.

(** [v.k] where [v] may be [null] or [undefined]. *)
Definition member (v : JsValue) (k : string) : M JsValue :=
  if nullish v then throw TypeError else ret (prop v k).

(** [error.message] in the catch clause of [sendWhatsAppMessage to ...]:
    the one TypeError its try block can raise is that of
    [formatPhoneNumber(to)], whose text the engine derives from [to]. *)
Definition message_of (to : JsValue) (e : Exception) : JsValue :=
  match e with
  | TypeError => JStr (TypeError_message to)
  | ProviderError message => message
  end.

(** *** The module-level functions *)

Definition FROM_NUMBER : jsstring :=
  match TWILIO_WHATSAPP_NUMBER with
  | Some (c :: s) => c :: s
  | _ => lit "whatsapp:+14155238886"
  end.

(** [phone.replace] exists on strings only. *)
Definition validatePhoneNumber (phone : JsValue) : M bool :=
  match phone with
  | JStr s => ret (validatePhoneNumber_string s)
  | _ => throw TypeError
  end.

Definition formatPhoneNumber (phone : JsValue) : M jsstring :=
  match phone with
  | JStr s => ret (formatPhoneNumber_string s)
  | _ => throw TypeError
  end.

Definition sendWhatsAppMessage (to : JsValue) (message : jsstring) : M JsValue :=
  try_catch
    (let* formattedNumber := formatPhoneNumber to in
     let* result := create message FROM_NUMBER (lit "whatsapp:" ++ formattedNumber) in
     ret (JObj [(lit "success", JBool true);
                (lit "sid", fst result);
                (lit "status", snd result)]))
    (fun error =>
       ret (JObj [(lit "success", JBool false);
                  (lit "error", message_of to error)])).

(** *** POST /api/send-alert *)

(** Lines 93 and 97 of the source: the two request checks. *)
Definition contacts_rejected (contacts : JsValue) : bool :=
  negb (truthy contacts) || negb (isArray contacts)
  || Nat.eqb (length (elements contacts)) 0.

Definition location_rejected (location : JsValue) : bool :=
  negb (truthy location) || negb (is_number (prop location "lat"))
  || negb (is_number (prop location "lng")).

(** Line 102: the key of the debounce Map. *)
Definition alertKey (timestamp location : JsValue) : option jsstring :=
  ts ← ToString timestamp;
  lat ← toFixed (prop location "lat") 3;
  lng ← toFixed (prop location "lng") 3;
  Some (ts ++ lit "-" ++ lat ++ lit "-" ++ lng).

(** Lines 107 to 116: record the alert, then clean up old entries. *)
Definition record_and_clean (key : jsstring) : M unit :=
  let* t := now in
  recentAlerts_set key t ;;
  let* t' := now in
  let fiveMinutesAgo := (t' - five_minutes)%Z in
  recentAlerts_sweep fiveMinutesAgo.

(** Line 120: [new Date(v).toLocaleString()]. *)
Definition formatted_time (v : JsValue) : option jsstring :=
  match v with
  | JArr _ | JObj _ => p ← Object_toPrimitive v; Some (Date_toLocaleString p)
  | _ => Some (Date_toLocaleString v)
  end.

(** Lines 118 to 132: the text of the alert. *)
Definition compose_alert (timestamp location userName : JsValue) : option jsstring :=
  lat ← ToString (prop location "lat");
  lng ← ToString (prop location "lng");
  let mapsLink := lit "https://maps.google.com/?q=" ++ lat ++ lit "," ++ lng in
  formattedTime ← formatted_time timestamp;
  user ← ToString (or_else userName (JStr (lit "User")));
  Some (alert_head ++ user ++ alert_location ++ mapsLink
        ++ alert_time ++ formattedTime ++ alert_tail).

(** Lines 135 to 159: the loop over the contacts; [results] is the array
    being filled. *)
Fixpoint dispatch (message : jsstring) (contacts : list JsValue)
    (results : list JsValue) : M (list JsValue) :=
  match contacts with
  | [] => ret results
  | contact :: contacts' =>
      let* contact_phone := member contact "phone" in
      let phone := or_else contact_phone contact in
      let* contact_name := member contact "name" in
      let name := or_else contact_name (JStr (lit "Emergency Contact")) in
      let* valid := validatePhoneNumber phone in
      if negb valid then
        dispatch message contacts'
          (results ++ [JObj [(lit "phone", phone);
                             (lit "name", name);
                             (lit "success", JBool false);
                             (lit "error", JStr (lit "Invalid phone number format"))]])
      else
        let* result := sendWhatsAppMessage phone message in
        let results' :=
          results ++ [JObj (spread [(lit "phone", phone); (lit "name", name)] result)] in
        delay 500 ;;
        dispatch message contacts' results'
  end.

(** Lines 118 to 170: compose the text, run the loop, answer with the
    summary. *)
Definition alert_response (contacts location timestamp userName : JsValue)
    : M Response :=
  let* message := lift_option (compose_alert timestamp location userName) in
  let* results := dispatch message (elements contacts) [] in
  let successful := length (List.filter succeeded results) in
  let failed := length (List.filter (fun r => negb (succeeded r)) results) in
  let* t := now in
  ret (mkResponse 200
         (JObj [(lit "success", JBool true);
                (lit "message",
                 JStr (lit "Alerts sent: " ++ count_toString successful
                       ++ lit " successful, " ++ count_toString failed
                       ++ lit " failed"));
                (lit "results", JArr results);
                (lit "timestamp", JStr (Date_toISOString t))])).

Definition duplicate_response : Response :=
  mkResponse 429
    (error_body "Duplicate alert detected. Please wait before sending another alert.").

Definition internal_error (e : Exception) : M Response :=
  ret (mkResponse 500 (error_body "Internal server error")).

Definition send_alert (body : JsValue) : M Response :=
  try_catch
    (destructure body ;;
     let contacts := prop body "contacts" in
     let location := prop body "location" in
     let timestamp := prop body "timestamp" in
     let userName := prop body "userName" in
     if contacts_rejected contacts then
       ret (mkResponse 400 (error_body "No contacts provided"))
     else if location_rejected location then
       ret (mkResponse 400 (error_body "Invalid location data"))
     else
       let* key := lift_option (alertKey timestamp location) in
       let* duplicate := recentAlerts_has key in
       if duplicate then ret duplicate_response
       else
         record_and_clean key ;;
         alert_response contacts location timestamp userName)
    internal_error.

(** *** POST /api/test-message *)

Definition test_message (body : JsValue) : M Response :=
  try_catch
    (destructure body ;;
     let phone := prop body "phone" in
     if negb (truthy phone) then
       ret (mkResponse 400 (error_body "Phone number required"))
     else
       let* formattedPhone := formatPhoneNumber phone in
       let* result := sendWhatsAppMessage (JStr formattedPhone) test_text in
       ret (mkResponse 200
              (JObj [(lit "success", prop result "success");
                     (lit "message",
                      JStr (if truthy (prop result "success")
                            then lit "Test message sent!"
                            else lit "Failed to send test message"));
                     (lit "details", result)])))
    (fun _ => ret (mkResponse 500 (error_body "Failed to send test message"))).

(** *** Reading a run *)

Definition response_of (run : Completion Response * ServerState) : option Response :=
  match fst run with Normal r => Some r | Throw _ => None end.

Definition state_of {A} (run : Completion A * ServerState) : ServerState := snd run.

(** What the clock answers at line 108 and at line 111 of a request that
    starts in [st]. *)
Definition set_time (st : ServerState) : Z := (Date_now (world st)).1.
Definition sweep_time (st : ServerState) : Z := (Date_now (Date_now (world st)).2).1.
Definition world_after_sweep (st : ServerState) : World :=
  (Date_now (Date_now (world st)).2).2.

End Server.

(** ** What [sendWhatsAppMessage] reports for an answer of the provider *)

Definition send_report (r : CreateResult) : JsValue :=
  match r with
  | Resolved sid status_ =>
      JObj [(lit "success", JBool true); (lit "sid", sid); (lit "status", status_)]
  | Rejected message_ =>
      JObj [(lit "success", JBool false); (lit "error", message_)]
  end.

(** The result pushed at line 141 for a phone that fails validation. *)
Definition invalid_result (phone name : JsValue) : JsValue :=
  JObj [(lit "phone", phone); (lit "name", name); (lit "success", JBool false);
        (lit "error", JStr (lit "Invalid phone number format"))].

(** A result whose [success] field is the boolean [b]. *)
Definition success_is (b : bool) (r : JsValue) : bool :=
  match prop r "success" with
  | JBool b' => Bool.eqb b b'
  | _ => false
  end.

(** ** Reading the result of a matcher *)

Definition matched (o : option MatchState) : bool :=
  match o with Some _ => true | None => false end.

Definition accept : Continuation := fun i rest => Some (i, rest).

(** ** The specification's wording, for comparison with the code *)

Module Spec.

(** "after stripping whitespace" *)
Definition strip_whitespace (s : jsstring) : jsstring :=
  List.filter (fun c => negb (isWhiteSpace c)) s.

(** "optional leading +, first digit 1-9, followed by 1-14 more digits" *)
Definition e164_like (s : jsstring) : Prop :=
  exists (first : N) (more : jsstring),
    (s = first :: more \/ s = chr "+" :: first :: more)
    /\ (chr "1" <= first <= chr "9")
    /\ Forall (fun c => chr "0" <= c <= chr "9") more
    /\ (1 <= length more <= 14)%nat.

(** "strips all non-digit characters" *)
Definition digits_of (s : jsstring) : jsstring :=
  List.filter (fun c => (chr "0" <=? c) && (c <=? chr "9")) s.

(** "prepends 1 when the digit count is exactly 10; prepends + to the
    final digit string" *)
Definition normalize (s : jsstring) : jsstring :=
  let digits := digits_of s in
  chr "+" :: (if decide (length digits = 10%nat) then chr "1" :: digits else digits).

(** "missing, not an array, or an empty array" *)
Definition contacts_invalid (contacts : JsValue) : Prop :=
  contacts = JUndefined \/ isArray contacts = false \/ contacts = JArr [].

(** "location is missing or its lat or lng is not a number" *)
Definition location_invalid (location : JsValue) : Prop :=
  location = JUndefined
  \/ is_number (prop location "lat") = false
  \/ is_number (prop location "lng") = false.

(** A contact "neither a string nor an object whose phone field is a
    string" is one for which this is [false]. *)
Definition phone_is_string (contact : JsValue) : bool :=
  match contact with
  | JStr _ => true
  | JObj _ => match prop contact "phone" with JStr _ => true | _ => false end
  | _ => false
  end.

(** A bare string, or an object whose phone is a string that is not empty. *)
Definition dispatchable (contact : JsValue) : bool :=
  match contact with
  | JStr _ => true
  | JObj _ => match prop contact "phone" with JStr (_ :: _) => true | _ => false end
  | _ => false
  end.

(** "Resolve phone (from contact.phone or contact itself if it is a bare
    string) and name (default Emergency Contact)" *)
Definition phone_of (contact : JsValue) : jsstring :=
  match contact with
  | JStr s => s
  | _ => match prop contact "phone" with JStr s => s | _ => [] end
  end.

Definition name_of (contact : JsValue) : JsValue :=
  match prop contact "name" with
  | JUndefined => JStr (lit "Emergency Contact")
  | n => if truthy n then n else JStr (lit "Emergency Contact")
  end.

Section Dispatch.
Context {rt : Runtime}.

(** sendOne of the specification: the result for one contact, the world
    afterwards, and the effects it caused. *)
Definition sendOne (contact : JsValue) (message : jsstring) (w : World)
    : JsValue * World * list Event :=
  let phone := phone_of contact in
  let name := name_of contact in
  if validatePhoneNumber_string phone then
    let to := lit "whatsapp:" ++ formatPhoneNumber_string phone in
    let effects := [MessagesCreate message FROM_NUMBER to; Timeout 500] in
    match messages_create message FROM_NUMBER to w with
    | (Resolved sid status_, w') =>
        (JObj [(lit "phone", JStr phone); (lit "name", name);
               (lit "success", JBool true); (lit "sid", sid);
               (lit "status", status_)],
         setTimeout_elapsed 500 w', effects)
    | (Rejected message_, w') =>
        (JObj [(lit "phone", JStr phone); (lit "name", name);
               (lit "success", JBool false); (lit "error", message_)],
         setTimeout_elapsed 500 w', effects)
    end
  else
    (JObj [(lit "phone", JStr phone); (lit "name", name);
           (lit "success", JBool false);
           (lit "error", JStr (lit "Invalid phone number format"))],
     w, []).

(** sendAll of the specification: one sendOne per contact, in order. *)
Fixpoint sendAll (contacts : list JsValue) (message : jsstring) (w : World)
    : list JsValue * World * list Event :=
  match contacts with
  | [] => ([], w, [])
  | contact :: contacts' =>
      let '(r, w1, e1) := sendOne contact message w in
      let '(rs, w2, e2) := sendAll contacts' message w1 in
      (r :: rs, w2, e1 ++ e2)
  end.

(** The fingerprint of a request that passes both request checks. *)
Definition fingerprint (body : JsValue) : option jsstring :=
  if nullish body then None
  else if contacts_rejected (prop body "contacts") then None
  else if location_rejected (prop body "location") then None
  else alertKey (prop body "timestamp") (prop body "location").

End Dispatch.

End Spec.

(** ** A runtime for the examples *)

Module Example.

(** The clock is the world; it advances only while a timeout runs. The
    provider accepts one destination and rejects every other. The
    conversions are those of JavaScript on the values the examples convert:
    the number zero, plain objects, and the absent timestamp. *)
Definition runtime : Runtime := {|
  World := Z;
  Date_now := fun w => (w, w);
  messages_create := fun body from to w =>
    if decide (to = lit "whatsapp:+14155551234")
    then (Resolved (JStr (lit "SM1")) (JStr (lit "queued")), w)
    else (Rejected (JStr (lit "Invalid 'To' Phone Number")), w);
  setTimeout_elapsed := fun ms w => (w + ms)%Z;
  TWILIO_WHATSAPP_NUMBER := None;
  Number_toFixed := fun x digits =>
    match x with S754_zero _ => lit "0.000" | _ => lit "NaN" end;
  Number_toString := fun x =>
    match x with S754_zero _ => lit "0" | _ => lit "NaN" end;
  Object_toString := fun v =>
    match v with
    | JObj fields =>
        match assoc (lit "toString") fields with
        | JUndefined => Some (lit "[object Object]")
        | _ => None
        end
    | _ => None
    end;
  Object_toPrimitive := fun v =>
    match v with
    | JObj fields =>
        match assoc (lit "toString") fields with
        | JUndefined => Some (JStr (lit "[object Object]"))
        | _ => None
        end
    | _ => None
    end;
  Date_toLocaleString := fun v => lit "Invalid Date";
  Date_toISOString := fun t => lit "1970-01-01T00:00:00.000Z";
  TypeError_message := fun v =>
    match v with
    | JUndefined => lit "Cannot read properties of undefined (reading 'replace')"
    | JNull => lit "Cannot read properties of null (reading 'replace')"
    | _ => lit "phone.replace is not a function"
    end
|}.

Definition zero : JsValue := JNum (S754_zero false).

(** [{contacts, location: {lat: 0, lng: 0}}]: an alert without timestamp,
    whose time JavaScript prints as "Invalid Date". *)
Definition alert (contacts : JsValue) : JsValue :=
  JObj [(lit "contacts", contacts);
        (lit "location", JObj [(lit "lat", zero); (lit "lng", zero)])].

Definition start (clock : Z) : @ServerState runtime :=
  mkState (rt := runtime) ∅ clock [].

(** The state [st] when the clock shows [clock]. *)
Definition at_clock (clock : Z) (st : @ServerState runtime) : @ServerState runtime :=
  mkState (rt := runtime) (recentAlerts st) clock (trace st).

(** The fingerprint of every [alert]. *)
Definition key : jsstring := lit "undefined-0.000-0.000".

(** The text of every [alert]. *)
Definition text : jsstring :=
  alert_head ++ lit "User" ++ alert_location ++ lit "https://maps.google.com/?q=0,0"
  ++ alert_time ++ lit "Invalid Date" ++ alert_tail.

(** The provider accepts the first contact; the phone of the second fails
    validation; the provider rejects the third. *)
Definition three_contacts : list JsValue :=
  [JStr (lit "+14155551234");
   JObj [(lit "phone", JStr (lit "abc")); (lit "name", JStr (lit "Bob"))];
   JStr (lit "+15555550000")].

(** [{phone: ""}] *)
Definition empty_phone : JsValue := JObj [(lit "phone", JStr [])].

(** The double 14155551234. *)
Definition number_14155551234 : JsValue :=
  JNum (S754_finite false 7421585645371392 (-19)).

End Example.

(** ** Vocabulary of the further properties *)

(** The code units a phone can be made of when [validatePhoneNumber]
    accepts it. *)
Definition phone_char (c : N) : bool :=
  isDigit c || isWhiteSpace c || (c =? chr "+").

Section Effects.

Context {rt : Runtime}.

(** What one turn of the loop does to the outside world for a contact
    whose phone resolves to a string: nothing when the phone fails
    validation, a call to the provider and a pause otherwise. *)
Definition contact_effects (message : jsstring) (contact : JsValue) : list Event :=
  if validatePhoneNumber_string (Spec.phone_of contact) then
    [MessagesCreate message FROM_NUMBER
       (lit "whatsapp:" ++ formatPhoneNumber_string (Spec.phone_of contact));
     Timeout 500]
  else [].

(** The state [st] seen again later: the same Map, another world and
    trace. *)
Definition same_alerts (st st' : ServerState) : Prop :=
  recentAlerts st' = recentAlerts st.




End Effects.

(** * Proofs *)

(** ** The RegExp fragment *)

Lemma chr_plus : chr "+" = 43.
Proof. reflexivity. Qed.

Lemma isDigit_spec (c : N) : isDigit c = true <-> chr "0" <= c <= chr "9".
Proof.
  unfold isDigit. change (chr "0") with 48. change (chr "9") with 57.
  rewrite andb_true_iff, !N.leb_le. tauto.
Qed.

Lemma match_atom (a : atom) (i : nat) (rest : jsstring) (k : Continuation) :
  compile (Atom a) i rest k =
  match rest with
  | c :: rest' => if atom_matches a c then k (S i) rest' else None
  | [] => None
  end.
Proof. reflexivity. Qed.

(** A global replacement of one character class by the empty string keeps
    exactly the characters outside the class. *)
Lemma replace_from_atom (a : atom) (s : jsstring) (i : nat) :
  replace_from (Atom a) [] i s 0%nat = List.filter (fun c => negb (atom_matches a c)) s.
Proof.
  revert i. induction s as [|c s IH]; intros i; [reflexivity|].
  cbn [replace_from List.filter]. unfold regex_match_at. rewrite match_atom.
  destruct (atom_matches a c); cbn [negb app].
  - replace (Nat.eqb (S i) i) with false by (symmetry; apply Nat.eqb_neq; lia).
    replace (S i - i - 1)%nat with 0%nat by lia. apply IH.
  - f_equal. apply IH.
Qed.

Lemma replace_all_atom (a : atom) (s : jsstring) :
  replace_all (Atom a) [] s = List.filter (fun c => negb (atom_matches a c)) s.
Proof. apply replace_from_atom. Qed.

(** A pattern that starts with [^] matches at index 0 or nowhere. *)
Lemma exec_anchored (r : regex) (rest : jsstring) (i : nat) :
  regex_exec_from (Seq Bol r) (S i) rest = None.
Proof.
  revert i. induction rest as [|c rest IH]; intros i; cbn; [reflexivity | apply IH].
Qed.

Lemma test_anchored (r : regex) (s : jsstring) :
  regex_test (Seq Bol r) s = matched (compile r 0%nat s accept).
Proof.
  unfold regex_test. destruct s as [|c s]; cbn.
  - unfold regex_match_at. cbn. fold accept. by destruct (compile r 0%nat [] accept).
  - unfold regex_match_at. cbn. fold accept.
    destruct (compile r 0%nat (c :: s) accept); [reflexivity|].
    by rewrite exec_anchored.
Qed.

(** A bounded repetition of one character class followed by [$]: the whole
    rest is in the class and its length is within the bounds. *)
Lemma repeat_atom_to_end (a : atom) (hi lo i : nat) (rest : jsstring) :
  matched (RepeatMatcher (compile (Atom a)) lo hi i rest
             (fun i' rest' => compile Eol i' rest' accept)) = true
  <-> (lo <= length rest <= hi)%nat /\ Forall (fun c => atom_matches a c = true) rest.
Proof.
  revert lo i rest. induction hi as [|hi IH]; intros lo i rest.
  - destruct lo as [|lo]; cbn.
    + destruct rest as [|c rest]; cbn.
      * split; [intros _; split; [lia | constructor] | done].
      * split; [done | intros [H _]; lia].
    + split; [done | intros [H _]; lia].
  - destruct lo as [|lo]; cbn [RepeatMatcher]; rewrite match_atom.
    + destruct rest as [|c rest].
      * cbn. split; [intros _; split; [lia | constructor] | done].
      * destruct (atom_matches a c) eqn:Hc.
        -- specialize (IH 0%nat (S i) rest).
           destruct (RepeatMatcher (compile (Atom a)) 0%nat hi (S i) rest
                       (fun i' rest' => compile Eol i' rest' accept)) eqn:Hr.
           ++ cbn in IH. cbn. split; [intros _ | done].
              destruct IH as [IH _]. destruct (IH eq_refl) as [Hl Hf].
              split; [lia | by constructor].
           ++ cbn. split; [done|]. intros [Hl Hf]. inversion Hf; subst.
              cbn in Hl. destruct IH as [_ IH]. apply IH. split; [lia | done].
        -- cbn. split; [done|]. intros [_ Hf]. inversion Hf; subst. congruence.
    + destruct rest as [|c rest].
      * cbn. split; [done | intros [H _]; cbn in H; lia].
      * destruct (atom_matches a c) eqn:Hc.
        -- rewrite (IH lo (S i) rest). cbn [length]. split.
           ++ intros [Hl Hf]. split; [lia | by constructor].
           ++ intros [Hl Hf]. inversion Hf; subst. split; [lia | done].
        -- cbn. split; [done|]. intros [_ Hf]. inversion Hf; subst. congruence.
Qed.

(** [[1-9]\d{1,14}$] from any index. *)
Lemma significant_digits (i : nat) (rest : jsstring) :
  matched (compile (Seq (Atom (Range (chr "1") (chr "9")))
                      (Seq (Rep (Atom Digit) 1 14) Eol)) i rest accept) = true
  <-> exists first more,
        rest = first :: more /\ (chr "1" <= first <= chr "9")
        /\ Forall (fun c => chr "0" <= c <= chr "9") more
        /\ (1 <= length more <= 14)%nat.
Proof.
  cbn [compile]. destruct rest as [|c rest].
  - cbn. split; [done | intros (f & m & H & _); discriminate].
  - cbn [atom_matches].
    destruct ((chr "1" <=? c) && (c <=? chr "9")) eqn:Hc.
    + apply andb_true_iff in Hc as [H1 H9]. apply N.leb_le in H1, H9.
      rewrite (repeat_atom_to_end Digit 14 1 (S i) rest). split.
      * intros [Hl Hf]. exists c, rest. repeat split; try done; try lia.
        eapply Forall_impl; [exact Hf|]. intros x Hx. by apply isDigit_spec.
      * intros (f & m & [= <- <-] & _ & Hf & Hl). split; [lia|].
        eapply Forall_impl; [exact Hf|]. intros x Hx. by apply isDigit_spec.
    + split; [done|]. intros (f & m & [= <- <-] & [H1 H9] & _).
      apply andb_false_iff in Hc as [Hc|Hc]; apply N.leb_gt in Hc; lia.
Qed.

Lemma match_seq (r1 r2 : regex) (i : nat) (rest : jsstring) (k : Continuation) :
  compile (Seq r1 r2) i rest k = compile r1 i rest (fun i' rest' => compile r2 i' rest' k).
Proof. reflexivity. Qed.

Lemma match_opt (r : regex) (i : nat) (rest : jsstring) (k : Continuation) :
  matched (compile (Opt r) i rest k) = matched (compile r i rest k) || matched (k i rest).
Proof. cbn [compile]. by destruct (compile r i rest k). Qed.

Lemma e164Regex_test (s : jsstring) :
  regex_test e164Regex s = true <-> Spec.e164_like s.
Proof.
  unfold e164Regex. rewrite test_anchored.
  rewrite match_seq, match_opt, match_atom. cbv beta. unfold Spec.e164_like.
  destruct s as [|c s].
  - change (matched None) with false. rewrite orb_false_l, significant_digits.
    split; [intros (f & m & H & _); discriminate | intros (f & m & [H|H] & _); discriminate].
  - cbn [atom_matches].
    assert (Hplus : matched (compile (Seq (Atom (Range (chr "1") (chr "9"))) (Seq (Rep (Atom Digit) 1 14) Eol))
                              0%nat (chr "+" :: s) accept) = false).
    { apply not_true_iff_false. intros H. apply significant_digits in H.
      destruct H as (f & m & [= <- <-] & [H1 _] & _).
      change (chr "+") with 43 in H1. change (chr "1") with 49 in H1. lia. }
    destruct (N.eqb_spec c (chr "+")) as [->|Hne]; cbv iota.
    + rewrite Hplus, orb_false_r, significant_digits. split.
      * intros (f & m & Hs & Hr & Hf & Hl). subst s. exists f, m. split; [by right | done].
      * intros (f & m & [[= <- <-]|[= ->]] & Hr & Hf & Hl).
        -- change (chr "+") with 43 in Hr. change (chr "1") with 49 in Hr. lia.
        -- by exists f, m.
    + change (matched None) with false. rewrite orb_false_l, significant_digits. split.
      * intros (f & m & [= <- <-] & Hr & Hf & Hl). exists c, s. split; [by left | done].
      * intros (f & m & [[= <- <-]|[= Hc Hs]] & Hr & Hf & Hl); [|done].
        by exists c, s.
Qed.

(** ** PhoneFormatter *)

Lemma strip_whitespace_replace (s : jsstring) :
  replace_all (Atom Space) [] s = Spec.strip_whitespace s.
Proof. apply replace_all_atom. Qed.

Lemma digits_of_replace (s : jsstring) :
  replace_all (Atom NonDigit) [] s = Spec.digits_of s.
Proof.
  rewrite replace_all_atom. unfold Spec.digits_of.
  apply List.filter_ext. intros c. cbn [atom_matches].
  rewrite negb_involutive. reflexivity.
Qed.

Lemma digits_of_all_digits (s : jsstring) :
  Forall (fun c => isDigit c = true) (Spec.digits_of s).
Proof.
  induction s as [|c s IH]; [constructor|].
  unfold Spec.digits_of. cbn [List.filter]. fold (Spec.digits_of s).
  change ((chr "0" <=? c) && (c <=? chr "9")) with (isDigit c).
  destruct (isDigit c) eqn:Hc; [by constructor | done].
Qed.

Lemma digits_of_fixed (s : jsstring) :
  Forall (fun c => isDigit c = true) s -> Spec.digits_of s = s.
Proof.
  induction 1 as [|c s Hc _ IH]; [reflexivity|].
  unfold Spec.digits_of. cbn [List.filter]. fold (Spec.digits_of s).
  change ((chr "0" <=? c) && (c <=? chr "9")) with (isDigit c).
  by rewrite Hc, IH.
Qed.

Lemma digits_never_start_with_plus (s : jsstring) :
  Forall (fun c => isDigit c = true) s -> startsWith s (lit "+") = false.
Proof.
  destruct 1 as [|c s Hc _]; [reflexivity|].
  change (lit "+") with [43]. cbn [startsWith].
  destruct (N.eqb_spec c 43) as [->|_]; [discriminate Hc | reflexivity].
Qed.

Lemma formatPhoneNumber_normalize (phone : jsstring) :
  formatPhoneNumber_string phone = Spec.normalize phone.
Proof.
  unfold formatPhoneNumber_string, Spec.normalize. rewrite digits_of_replace.
  rewrite digits_never_start_with_plus by apply digits_of_all_digits.
  cbn [negb]. case_decide as Hlen.
  - rewrite Hlen. reflexivity.
  - replace (Nat.eqb (length (Spec.digits_of phone)) 10) with false
      by (symmetry; by apply Nat.eqb_neq).
    reflexivity.
Qed.

Lemma normalize_digits (s : jsstring) :
  exists digits, Spec.normalize s = chr "+" :: digits
                 /\ Forall (fun c => isDigit c = true) digits
                 /\ length digits <> 10%nat.
Proof.
  unfold Spec.normalize. pose proof (digits_of_all_digits s) as Hd.
  case_decide as Hlen; eexists; (split; [reflexivity|]); split; try done.
  - by constructor.
  - cbn [length]. lia.
Qed.

(** C6: [validate(phone)] holds exactly when the phone without its
    whitespace is an optional [+], a first digit 1-9 and 1 to 14 further
    digits; it accepts "+14155551234" and "14155551234" and rejects "abc",
    "+0123", the empty string and "123456789012345678". *)
Theorem validatePhoneNumber_e164 (phone : jsstring) :
  (validatePhoneNumber_string phone = true
   <-> Spec.e164_like (Spec.strip_whitespace phone))
  /\ validatePhoneNumber_string (lit "+14155551234") = true
  /\ validatePhoneNumber_string (lit "14155551234") = true
  /\ validatePhoneNumber_string (lit "abc") = false
  /\ validatePhoneNumber_string (lit "+0123") = false
  /\ validatePhoneNumber_string (lit "") = false
  /\ validatePhoneNumber_string (lit "123456789012345678") = false.
Proof.
  split; [|repeat split; reflexivity].
  unfold validatePhoneNumber_string.
  rewrite strip_whitespace_replace. apply e164Regex_test.
Qed.

(** C7: [normalize] keeps the digits of the phone, puts a 1 before them
    when there are exactly 10, and a [+] before the result; it turns
    "(415) 555-1234" into "+14155551234" and "+44 20 7946 0958" into
    "+442079460958". *)
Theorem formatPhoneNumber_spec (phone : jsstring) :
  formatPhoneNumber_string phone = Spec.normalize phone
  /\ formatPhoneNumber_string (lit "(415) 555-1234") = lit "+14155551234"
  /\ formatPhoneNumber_string (lit "+44 20 7946 0958") = lit "+442079460958".
Proof.
  split; [apply formatPhoneNumber_normalize | split; reflexivity].
Qed.

(** C8: [normalize] is idempotent. *)
Theorem formatPhoneNumber_idempotent (s : jsstring) :
  formatPhoneNumber_string (formatPhoneNumber_string s) = formatPhoneNumber_string s.
Proof.
  rewrite !formatPhoneNumber_normalize.
  destruct (normalize_digits s) as (digits & -> & Hd & Hlen).
  unfold Spec.normalize, Spec.digits_of. cbn [List.filter].
  change ((chr "0" <=? chr "+") && (chr "+" <=? chr "9")) with false. cbv iota.
  fold (Spec.digits_of digits). rewrite digits_of_fixed by done.
  by rewrite decide_False.
Qed.

(** ** The debounce Map *)

Lemma sweep_entries_lookup (m : gmap jsstring Z) (fiveMinutesAgo : Z) (k : jsstring) :
  sweep_entries m fiveMinutesAgo !! k =
  match m !! k with
  | Some t => if bool_decide (t < fiveMinutesAgo)%Z then None else Some t
  | None => None
  end.
Proof.
  unfold sweep_entries.
  assert (H : forall m', map_fold
                (fun key time acc =>
                   if bool_decide (time < fiveMinutesAgo)%Z then delete key acc else acc)
                m m' !! k =
              match m' !! k with
              | Some t => if bool_decide (t < fiveMinutesAgo)%Z then None else m !! k
              | None => m !! k
              end).
  { apply (map_fold_weak_ind (fun r m' => r !! k =
              match m' !! k with
              | Some t => if bool_decide (t < fiveMinutesAgo)%Z then None else m !! k
              | None => m !! k
              end)).
    - by rewrite lookup_empty.
    - intros i x m' r Hi IH. destruct (decide (i = k)) as [->|Hne].
      + rewrite lookup_insert_eq. rewrite Hi in IH.
        case_bool_decide; [by rewrite lookup_delete_eq | done].
      + rewrite lookup_insert_ne by done.
        case_bool_decide; [by rewrite lookup_delete_ne | done]. }
  rewrite H. destruct (m !! k); [by case_bool_decide | done].
Qed.

(** The clean-up loop is a filter on the insertion times. *)
Lemma sweep_entries_filter (m : gmap jsstring Z) (fiveMinutesAgo : Z) :
  sweep_entries m fiveMinutesAgo
  = filter (fun kv : jsstring * Z => (fiveMinutesAgo <= kv.2)%Z) m.
Proof.
  apply map_eq. intros k. rewrite sweep_entries_lookup, map_lookup_filter.
  destruct (m !! k) as [t|]; [|done]. cbn.
  case_bool_decide; case_guard; cbn in *; try done; lia.
Qed.

Lemma sweep_entries_recent (m : gmap jsstring Z) (fiveMinutesAgo : Z) (k : jsstring) (t : Z) :
  sweep_entries m fiveMinutesAgo !! k = Some t -> (fiveMinutesAgo <= t)%Z.
Proof.
  rewrite sweep_entries_lookup. destruct (m !! k) as [t'|]; [|done].
  case_bool_decide; [done|]. intros [= <-]. lia.
Qed.

Lemma sweep_entries_stale (m : gmap jsstring Z) (fiveMinutesAgo : Z) (k : jsstring) (t : Z) :
  m !! k = Some t -> (t < fiveMinutesAgo)%Z -> sweep_entries m fiveMinutesAgo !! k = None.
Proof.
  intros Hk Ht. rewrite sweep_entries_lookup, Hk. by rewrite bool_decide_eq_true_2.
Qed.

(** ** The request checks *)

Lemma contacts_rejected_invalid (contacts : JsValue) :
  contacts_rejected contacts = true <-> Spec.contacts_invalid contacts.
Proof.
  unfold Spec.contacts_invalid.
  destruct contacts as [| |b|x|s|elems|fields]; unfold contacts_rejected;
    cbn [truthy isArray elements negb orb length Nat.eqb]; rewrite ?orb_true_r;
    try (split; [intros _; right; left; reflexivity | done]).
  destruct elems as [|e elems]; cbn.
  - split; [intros _; by right; right | done].
  - split; [done | intros [H|[H|H]]; discriminate].
Qed.

Lemma location_rejected_invalid (location : JsValue) :
  location_rejected location = true <-> Spec.location_invalid location.
Proof.
  unfold location_rejected, Spec.location_invalid.
  destruct (truthy location) eqn:Ht; cbn [negb orb].
  - rewrite orb_true_iff, !negb_true_iff. split.
    + intros [H|H]; [by right; left | by right; right].
    + intros [->|[H|H]]; [discriminate Ht | by left | by right].
  - split; [intros _ | done]. right; left.
    destruct location as [| |b|x|s|elems|fields]; try reflexivity. discriminate Ht.
Qed.

(** ** The routes *)

Section Routes.

Context {rt : Runtime}.

Implicit Types (st : ServerState) (body contact : JsValue) (key message : jsstring).

(** On a string, [sendWhatsAppMessage] calls the provider once, with the
    normalized number, and never raises. *)
Lemma sendWhatsAppMessage_string (s : jsstring) message st :
  let to := lit "whatsapp:" ++ formatPhoneNumber_string s in
  let answer := messages_create message FROM_NUMBER to (world st) in
  sendWhatsAppMessage (JStr s) message st
  = (Normal (send_report (fst answer)),
     mkState (recentAlerts st) (snd answer)
       (trace st ++ [MessagesCreate message FROM_NUMBER to])).
Proof.
  cbv zeta. unfold sendWhatsAppMessage, try_catch, bind, formatPhoneNumber, ret, create.
  destruct (messages_create message FROM_NUMBER
              (lit "whatsapp:" ++ formatPhoneNumber_string s) (world st)) as [[sid st_|m] w];
    reflexivity.
Qed.

Lemma fingerprint_inv body key :
  Spec.fingerprint body = Some key ->
  nullish body = false
  /\ contacts_rejected (prop body "contacts") = false
  /\ location_rejected (prop body "location") = false
  /\ alertKey (prop body "timestamp") (prop body "location") = Some key.
Proof.
  unfold Spec.fingerprint.
  destruct (nullish body); [done|].
  destruct (contacts_rejected _); [done|].
  destruct (location_rejected _); done.
Qed.

(** A request whose fingerprint is in the Map is answered at line 104. *)
Lemma send_alert_duplicate body key st :
  Spec.fingerprint body = Some key ->
  is_Some (recentAlerts st !! key) ->
  send_alert body st = (Normal duplicate_response, st).
Proof.
  intros (Hb & Hc & Hl & Hk)%fingerprint_inv Hin.
  unfold send_alert, try_catch, bind, destructure, recentAlerts_has.
  rewrite Hb, Hc, Hl, Hk. cbn [ret lift_option].
  by rewrite bool_decide_eq_true_2.
Qed.

(** A request whose fingerprint is not in the Map goes on to line 108. *)
Lemma send_alert_fresh body key st :
  Spec.fingerprint body = Some key ->
  recentAlerts st !! key = None ->
  send_alert body st
  = try_catch
      (bind (record_and_clean key)
         (fun _ => alert_response (prop body "contacts") (prop body "location")
                     (prop body "timestamp") (prop body "userName")))
      internal_error st.
Proof.
  intros (Hb & Hc & Hl & Hk)%fingerprint_inv Hin.
  unfold send_alert, try_catch, bind at 1 2 3, destructure, recentAlerts_has.
  rewrite Hb, Hc, Hl, Hk. cbn [ret lift_option].
  rewrite bool_decide_eq_false_2; [reflexivity|].
  rewrite Hin. by intros [? ?].
Qed.

(** C4: a request whose contacts are missing, not an array or empty is
    answered 400 "No contacts provided"; one whose contacts pass and whose
    location is missing or has a lat or lng that is not a number is
    answered 400 "Invalid location data"; in both cases the state is
    left as it was: nothing is sent and no fingerprint is recorded. *)
Theorem send_alert_validation body st :
  nullish body = false ->
  (Spec.contacts_invalid (prop body "contacts") ->
   send_alert body st
   = (Normal (mkResponse 400 (error_body "No contacts provided")), st))
  /\ (~ Spec.contacts_invalid (prop body "contacts") ->
      Spec.location_invalid (prop body "location") ->
      send_alert body st
      = (Normal (mkResponse 400 (error_body "Invalid location data")), st)).
Proof.
  intros Hb. split.
  - intros Hc%contacts_rejected_invalid.
    unfold send_alert, try_catch, bind, destructure. by rewrite Hb, Hc.
  - intros Hc Hl%location_rejected_invalid.
    rewrite <- contacts_rejected_invalid in Hc. apply not_true_is_false in Hc.
    unfold send_alert, try_catch, bind, destructure. by rewrite Hb, Hc, Hl.
Qed.

(** *** The loop over the contacts *)

Lemma spread_report (phone name : JsValue) (r : CreateResult) :
  spread [(lit "phone", phone); (lit "name", name)] (send_report r)
  = (lit "phone", phone) :: (lit "name", name) :: own_fields (send_report r).
Proof. destruct r; reflexivity. Qed.

(** One turn of the loop for a contact whose phone resolves to a string. *)
Lemma dispatch_resolved message contact (contacts results : list JsValue) st (s : jsstring) :
  nullish contact = false ->
  or_else (prop contact "phone") contact = JStr s ->
  let name := or_else (prop contact "name") (JStr (lit "Emergency Contact")) in
  let to := lit "whatsapp:" ++ formatPhoneNumber_string s in
  let answer := messages_create message FROM_NUMBER to (world st) in
  dispatch message (contact :: contacts) results st
  = if validatePhoneNumber_string s then
      dispatch message contacts
        (results ++ [JObj ((lit "phone", JStr s) :: (lit "name", name)
                           :: own_fields (send_report (fst answer)))])
        (mkState (recentAlerts st) (setTimeout_elapsed 500 (snd answer))
           (trace st ++ [MessagesCreate message FROM_NUMBER to; Timeout 500]))
    else dispatch message contacts (results ++ [invalid_result (JStr s) name]) st.
Proof.
  intros Hn Hs. cbv zeta. cbn [dispatch].
  unfold bind at 1 2 3, member. rewrite Hn. cbn [ret]. rewrite Hs.
  cbn [validatePhoneNumber ret]. destruct (validatePhoneNumber_string s); cbn [negb].
  - unfold bind at 1. rewrite sendWhatsAppMessage_string. cbv zeta.
    unfold bind at 1, delay. cbn [recentAlerts world trace].
    rewrite spread_report, <- app_assoc. reflexivity.
  - reflexivity.
Qed.

(** One turn of the loop for any other contact: a TypeError, raised
    before anything is sent. *)
Lemma dispatch_unresolved message contact (contacts results : list JsValue) st :
  nullish contact = true \/ (forall s, or_else (prop contact "phone") contact <> JStr s) ->
  dispatch message (contact :: contacts) results st = (Throw TypeError, st).
Proof.
  intros [Hn|Hs]; cbn [dispatch]; unfold bind at 1, member.
  - by rewrite Hn.
  - destruct (nullish contact); [reflexivity|]. cbn [ret].
    unfold bind at 1. cbn [ret]. unfold bind at 1.
    destruct (or_else (prop contact "phone") contact) eqn:Hp; try reflexivity.
    by destruct (Hs s).
Qed.

Lemma resolve_cases contact :
  (exists s, nullish contact = false /\ or_else (prop contact "phone") contact = JStr s)
  \/ (nullish contact = true \/ forall s, or_else (prop contact "phone") contact <> JStr s).
Proof.
  destruct (nullish contact); [right; by left|].
  destruct (or_else (prop contact "phone") contact) eqn:Hp;
    first [left; by eexists | right; right; intros ?; discriminate].
Qed.

Lemma malformed_unresolved contact :
  Spec.phone_is_string contact = false ->
  nullish contact = true \/ forall s, or_else (prop contact "phone") contact <> JStr s.
Proof.
  intros H. destruct contact as [| |b|x|s'|elems|fields];
    try discriminate H; try (by left);
    try (right; intros s; unfold or_else; cbn [prop truthy]; discriminate).
  right. intros s. unfold or_else. unfold Spec.phone_is_string in H.
  destruct (prop (JObj fields) "phone") as [| |b|x|s'|elems|fields'];
    try discriminate H; cbn [truthy]; try discriminate.
  - by destruct b.
  - destruct x; discriminate.
Qed.

Lemma dispatchable_resolved contact :
  Spec.dispatchable contact = true ->
  nullish contact = false
  /\ or_else (prop contact "phone") contact = JStr (Spec.phone_of contact)
  /\ or_else (prop contact "name") (JStr (lit "Emergency Contact")) = Spec.name_of contact.
Proof.
  intros H. destruct contact as [| |b|x|s'|elems|fields]; try discriminate H.
  - repeat split.
  - unfold Spec.dispatchable in H. unfold Spec.phone_of, Spec.name_of, or_else.
    destruct (prop (JObj fields) "phone") as [| |b|x|[|c s']|elems|fields'];
      try discriminate H.
    repeat split. by destruct (prop (JObj fields) "name").
Qed.

(** The loop never touches the debounce Map, whether it ends or raises. *)
Lemma dispatch_recentAlerts message (contacts results : list JsValue) st :
  recentAlerts (snd (dispatch message contacts results st)) = recentAlerts st.
Proof.
  revert results st. induction contacts as [|contact contacts IH]; intros results st.
  - reflexivity.
  - destruct (resolve_cases contact) as [(s & Hn & Hs)|Hbad].
    + rewrite (dispatch_resolved _ _ _ _ _ s Hn Hs). cbv zeta.
      destruct (validatePhoneNumber_string s); by rewrite IH.
    + by rewrite dispatch_unresolved.
Qed.

(** A contact that is neither a string nor an object with a string phone
    makes the loop raise, wherever it stands in the array. *)
Lemma dispatch_malformed message (contacts results : list JsValue) st :
  Exists (fun contact => Spec.phone_is_string contact = false) contacts ->
  fst (dispatch message contacts results st) = Throw TypeError.
Proof.
  intros Hex. revert results st.
  induction contacts as [|contact contacts IH]; intros results st.
  - inversion Hex.
  - destruct (resolve_cases contact) as [(s & Hn & Hs)|Hbad].
    + rewrite (dispatch_resolved _ _ _ _ _ s Hn Hs). cbv zeta.
      assert (Htail : Exists (fun c => Spec.phone_is_string c = false) contacts).
      { inversion Hex as [? ? Hhead|]; subst; [|done].
        apply malformed_unresolved in Hhead as [Hn'|Hs']; [congruence | by destruct (Hs' s)]. }
      destruct (validatePhoneNumber_string s); by apply IH.
    + by rewrite dispatch_unresolved.
Qed.

(** On contacts that resolve to a phone, the loop is sendAll. *)
Lemma dispatch_sendAll message (contacts : list JsValue) :
  Forall (fun contact => Spec.dispatchable contact = true) contacts ->
  forall results st,
    dispatch message contacts results st
    = (Normal (results ++ (Spec.sendAll contacts message (world st)).1.1),
       mkState (recentAlerts st) (Spec.sendAll contacts message (world st)).1.2
         (trace st ++ (Spec.sendAll contacts message (world st)).2)).
Proof.
  induction 1 as [|contact contacts Hc _ IH]; intros results st.
  - cbn. rewrite !app_nil_r. by destruct st.
  - apply dispatchable_resolved in Hc as (Hn & Hs & Hname).
    rewrite (dispatch_resolved _ _ _ _ _ _ Hn Hs). cbv zeta. rewrite Hname.
    cbn [Spec.sendAll]. unfold Spec.sendOne.
    destruct (validatePhoneNumber_string (Spec.phone_of contact)).
    + rewrite IH. cbn [recentAlerts world trace].
      destruct (messages_create message FROM_NUMBER
                  (lit "whatsapp:" ++ formatPhoneNumber_string (Spec.phone_of contact))
                  (world st)) as [[sid st_|m] w]; cbn [fst snd send_report own_fields];
        destruct (Spec.sendAll contacts message (setTimeout_elapsed 500 w)) as [[rs w'] ev];
        cbn [fst snd]; by rewrite <- !app_assoc.
    + rewrite IH.
      destruct (Spec.sendAll contacts message (world st)) as [[rs w'] ev].
      cbn [fst snd]. by rewrite <- !app_assoc.
Qed.

Lemma sendAll_length message (contacts : list JsValue) (w : World) :
  length (Spec.sendAll contacts message w).1.1 = length contacts.
Proof.
  revert w. induction contacts as [|contact contacts IH]; intros w; [reflexivity|].
  cbn [Spec.sendAll]. destruct (Spec.sendOne contact message w) as [[r w1] e1].
  specialize (IH w1). destruct (Spec.sendAll contacts message w1) as [[rs w2] e2].
  cbn in *. by rewrite IH.
Qed.

(** Result number [i] is the result of sendOne on contact number [i]. *)
Lemma sendAll_lookup message (contacts : list JsValue) (w : World) (i : nat) contact :
  contacts !! i = Some contact ->
  exists w', (Spec.sendAll contacts message w).1.1 !! i
             = Some (Spec.sendOne contact message w').1.1.
Proof.
  revert w i. induction contacts as [|c contacts IH]; intros w i Hi; [done|].
  cbn [Spec.sendAll]. destruct (Spec.sendOne c message w) as [[r w1] e1] eqn:Hone.
  destruct i as [|i].
  - injection Hi as ->. exists w. rewrite Hone.
    by destruct (Spec.sendAll contacts message w1) as [[rs w2] e2].
  - destruct (IH w1 i Hi) as [w' Hw']. exists w'.
    by destruct (Spec.sendAll contacts message w1) as [[rs w2] e2].
Qed.

Lemma sendOne_fields message contact (w : World) :
  let r := (Spec.sendOne contact message w).1.1 in
  prop r "phone" = JStr (Spec.phone_of contact)
  /\ prop r "name" = Spec.name_of contact
  /\ exists b, prop r "success" = JBool b.
Proof.
  cbv zeta. unfold Spec.sendOne.
  destruct (validatePhoneNumber_string (Spec.phone_of contact)).
  - destruct (messages_create _ _ _ _) as [[sid st_|m] w']; repeat split; by eexists.
  - repeat split; by eexists.
Qed.

(** C2, amended: on a list of contacts that are bare strings or objects
    with a phone string that is not empty, the loop ends without raising
    and returns one result per contact, in the order of the contacts: the
    results, the world and the effects of sendAll. A contact whose phone
    fails validation gets the "Invalid phone number format" result and
    causes no effect, so the provider is not called for it; a contact for
    which the provider rejects gets [success: false] with the message of
    the rejection; in both cases the remaining contacts follow. *)
Theorem dispatch_isolation message (contacts : list JsValue) st :
  Forall (fun contact => Spec.dispatchable contact = true) contacts ->
  let '(results, w, effects) := Spec.sendAll contacts message (world st) in
  dispatch message contacts [] st
  = (Normal results, mkState (recentAlerts st) w (trace st ++ effects))
  /\ length results = length contacts
  /\ (forall i contact,
        contacts !! i = Some contact ->
        exists r w',
          results !! i = Some r
          /\ r = (Spec.sendOne contact message w').1.1
          /\ prop r "phone" = JStr (Spec.phone_of contact)
          /\ prop r "name" = Spec.name_of contact)
  /\ (forall contact w',
        validatePhoneNumber_string (Spec.phone_of contact) = false ->
        Spec.sendOne contact message w'
        = (invalid_result (JStr (Spec.phone_of contact)) (Spec.name_of contact), w', []))
  /\ (forall contact w' error w'',
        validatePhoneNumber_string (Spec.phone_of contact) = true ->
        messages_create message FROM_NUMBER
          (lit "whatsapp:" ++ formatPhoneNumber_string (Spec.phone_of contact)) w'
        = (Rejected error, w'') ->
        (Spec.sendOne contact message w').1.1
        = JObj [(lit "phone", JStr (Spec.phone_of contact));
                (lit "name", Spec.name_of contact);
                (lit "success", JBool false); (lit "error", error)]).
Proof.
  intros Hc.
  pose proof (dispatch_sendAll message contacts Hc [] st) as Hrun.
  pose proof (sendAll_length message contacts (world st)) as Hlen.
  pose proof (sendAll_lookup message contacts (world st)) as Hlook.
  destruct (Spec.sendAll contacts message (world st)) as [[results w] effects].
  cbn [fst snd] in *. repeat split.
  - exact Hrun.
  - exact Hlen.
  - intros i contact Hi. destruct (Hlook i contact Hi) as [w' Hw'].
    exists (Spec.sendOne contact message w').1.1, w'.
    destruct (sendOne_fields message contact w') as (Hp & Hn & _). done.
  - intros contact w' Hv. unfold Spec.sendOne. by rewrite Hv.
  - intros contact w' error w'' Hv Hr. unfold Spec.sendOne. by rewrite Hv, Hr.
Qed.

(** *** The alert route after the debounce *)

Lemma record_and_clean_run key st (t1 t2 : Z) (w1 w2 : World) :
  Date_now (world st) = (t1, w1) ->
  Date_now w1 = (t2, w2) ->
  record_and_clean key st
  = (Normal tt,
     mkState (sweep_entries (<[key := t1]> (recentAlerts st)) (t2 - five_minutes))
       w2 (trace st)).
Proof.
  intros H1 H2. unfold record_and_clean, bind, now, recentAlerts_set, recentAlerts_sweep.
  rewrite H1. cbn [world recentAlerts trace]. by rewrite H2.
Qed.

Lemma alert_response_recentAlerts (contacts location timestamp userName : JsValue) st :
  recentAlerts (snd (alert_response contacts location timestamp userName st))
  = recentAlerts st.
Proof.
  unfold alert_response, bind at 1.
  destruct (compose_alert timestamp location userName) as [message|]; [|done].
  cbn [lift_option ret]. unfold bind at 1.
  pose proof (dispatch_recentAlerts message (elements contacts) [] st) as Hd.
  destruct (dispatch message (elements contacts) [] st) as [[results|e] st']; [|done].
  cbn [snd] in Hd. unfold bind, now, ret.
  by destruct (Date_now (world st')).
Qed.

Lemma alert_response_status (contacts location timestamp userName : JsValue) st
    (r : Response) st' :
  alert_response contacts location timestamp userName st = (Normal r, st') ->
  status r = 200%Z.
Proof.
  unfold alert_response, bind at 1.
  destruct (compose_alert timestamp location userName) as [message|]; [|done].
  cbn [lift_option ret]. unfold bind at 1.
  destruct (dispatch message (elements contacts) [] st) as [[results|e] st1]; [|done].
  unfold bind, now, ret. destruct (Date_now (world st1)). by intros [= <- _].
Qed.

(** Past the debounce: the clock is read twice, the Map is updated and
    swept, and the rest of the route runs under the catch clause. *)
Lemma send_alert_fresh_run body key st (t1 t2 : Z) (w1 w2 : World) :
  Spec.fingerprint body = Some key ->
  recentAlerts st !! key = None ->
  Date_now (world st) = (t1, w1) ->
  Date_now w1 = (t2, w2) ->
  send_alert body st
  = try_catch
      (alert_response (prop body "contacts") (prop body "location")
         (prop body "timestamp") (prop body "userName"))
      internal_error
      (mkState (sweep_entries (<[key := t1]> (recentAlerts st)) (t2 - five_minutes))
         w2 (trace st)).
Proof.
  intros Hf Hk H1 H2. rewrite (send_alert_fresh body key st Hf Hk).
  unfold try_catch, bind at 1.
  by rewrite (record_and_clean_run key st t1 t2 w1 w2 H1 H2).
Qed.

(** The alert route always answers; past the debounce the answer is the
    200 of the summary or the 500 of the catch clause. *)
Lemma send_alert_past_debounce body key st (t1 t2 : Z) (w1 w2 : World) :
  Spec.fingerprint body = Some key ->
  recentAlerts st !! key = None ->
  Date_now (world st) = (t1, w1) ->
  Date_now w1 = (t2, w2) ->
  (exists r, response_of (send_alert body st) = Some r
             /\ (status r = 200%Z \/ status r = 500%Z))
  /\ recentAlerts (snd (send_alert body st))
     = sweep_entries (<[key := t1]> (recentAlerts st)) (t2 - five_minutes).
Proof.
  intros Hf Hk H1 H2. rewrite (send_alert_fresh_run body key st t1 t2 w1 w2 Hf Hk H1 H2).
  unfold try_catch. set (st1 := mkState _ w2 (trace st)).
  pose proof (alert_response_recentAlerts (prop body "contacts") (prop body "location")
                (prop body "timestamp") (prop body "userName") st1) as Hm.
  pose proof (alert_response_status (prop body "contacts") (prop body "location")
                (prop body "timestamp") (prop body "userName") st1) as Hs.
  destruct (alert_response _ _ _ _ st1) as [[r|e] st2]; cbn [snd] in Hm.
  - split; [|exact Hm]. exists r. split; [reflexivity|]. left. by eapply Hs.
  - split; [|exact Hm]. eexists. split; [reflexivity|]. by right.
Qed.

Lemma clock_readings st :
  Date_now (world st) = (set_time st, (Date_now (world st)).2)
  /\ Date_now (Date_now (world st)).2 = (sweep_time st, world_after_sweep st).
Proof.
  unfold set_time, sweep_time, world_after_sweep.
  destruct (Date_now (world st)) as [t1 w1]. cbn [fst snd].
  by destruct (Date_now w1).
Qed.

Lemma send_alert_fresh_state body key st :
  Spec.fingerprint body = Some key ->
  recentAlerts st !! key = None ->
  (exists r, response_of (send_alert body st) = Some r
             /\ (status r = 200%Z \/ status r = 500%Z))
  /\ recentAlerts (state_of (send_alert body st))
     = sweep_entries (<[key := set_time st]> (recentAlerts st))
         (sweep_time st - five_minutes).
Proof.
  intros Hf Hk. destruct (clock_readings st) as [H1 H2].
  exact (send_alert_past_debounce body key st _ _ _ _ Hf Hk H1 H2).
Qed.

(** A request is answered before the debounce Map is written, and leaves
    the state as it was, or its fingerprint is new. *)
Lemma send_alert_cases body st :
  (state_of (send_alert body st) = st
   /\ exists r, response_of (send_alert body st) = Some r
                /\ (status r = 400%Z \/ status r = 429%Z \/ status r = 500%Z))
  \/ exists key, Spec.fingerprint body = Some key /\ recentAlerts st !! key = None.
Proof.
  destruct (Spec.fingerprint body) as [key|] eqn:Hf.
  - destruct (recentAlerts st !! key) as [t|] eqn:Hk; [|right; by exists key].
    left. rewrite (send_alert_duplicate body key st Hf) by (by exists t).
    split; [reflexivity|]. eexists. split; [reflexivity|]. right. by left.
  - left. unfold Spec.fingerprint in Hf.
    unfold send_alert, try_catch, bind, destructure, recentAlerts_has.
    destruct (nullish body); [split; [reflexivity|]; eexists; split;
                               [reflexivity | by right; right]|].
    cbn [ret]. destruct (contacts_rejected _);
      [split; [reflexivity|]; eexists; split; [reflexivity | by left]|].
    destruct (location_rejected _);
      [split; [reflexivity|]; eexists; split; [reflexivity | by left]|].
    rewrite Hf. split; [reflexivity|]. eexists. split; [reflexivity | by right; right].
Qed.




(** C3, amended: the clean-up runs after the fingerprint of a request
    that is not a duplicate has been recorded, and only then: a duplicate
    is answered before it and leaves the whole state, stale entries
    included, as it was. Immediately after the clean-up the Map holds
    exactly the entries, the new one included, inserted no earlier than
    five minutes before the clock reading of the clean-up. *)
Theorem sweep_after_recording body key st :
  Spec.fingerprint body = Some key ->
  (is_Some (recentAlerts st !! key) -> state_of (send_alert body st) = st)
  /\ (recentAlerts st !! key = None ->
      recentAlerts (state_of (send_alert body st))
      = filter (fun kv : jsstring * Z => (sweep_time st - five_minutes <= kv.2)%Z)
          (<[key := set_time st]> (recentAlerts st))
      /\ forall k (t : Z),
           recentAlerts (state_of (send_alert body st)) !! k = Some t ->
           (sweep_time st - five_minutes <= t)%Z).
Proof.
  intros Hf. split.
  - intros Hk. by rewrite (send_alert_duplicate body key st Hf Hk).
  - intros Hk. destruct (send_alert_fresh_state body key st Hf Hk) as [_ ->].
    split; [apply sweep_entries_filter|].
    intros k t. apply sweep_entries_recent.
Qed.

(** C9: when a request has passed the two checks and the debounce and one
    of its contacts is neither a string nor an object whose phone is a
    string, the turn of the loop that reaches such a contact raises a
    TypeError, the loop ends there with it, and the route answers 500
    "Internal server error", without the results gathered so far. *)
Theorem malformed_contact_internal_error body key st :
  Spec.fingerprint body = Some key ->
  recentAlerts st !! key = None ->
  Exists (fun contact => Spec.phone_is_string contact = false)
    (elements (prop body "contacts")) ->
  (forall message results st0,
     fst (dispatch message (elements (prop body "contacts")) results st0)
     = Throw TypeError)
  /\ response_of (send_alert body st)
     = Some (mkResponse 500 (error_body "Internal server error")).
Proof.
  intros Hf Hk Hbad. split.
  - intros message results st0. by apply dispatch_malformed.
  - destruct (clock_readings st) as [H1 H2].
    rewrite (send_alert_fresh_run body key st _ _ _ _ Hf Hk H1 H2).
    unfold try_catch, alert_response, bind at 1.
    destruct (compose_alert _ _ _) as [message|]; [|reflexivity].
    cbn [lift_option ret]. unfold bind at 1.
    set (st1 := mkState _ _ _).
    pose proof (dispatch_malformed message _ [] st1 Hbad) as Hd.
    destruct (dispatch message _ [] st1) as [[results|e] st2]; [discriminate Hd|].
    reflexivity.
Qed.

(** *** The summary *)

Lemma sendAll_success_flags message (contacts : list JsValue) (w : World) :
  Forall (fun r => exists b, prop r "success" = JBool b)
    (Spec.sendAll contacts message w).1.1.
Proof.
  revert w. induction contacts as [|contact contacts IH]; intros w; [constructor|].
  cbn [Spec.sendAll].
  destruct (sendOne_fields message contact w) as (_ & _ & Hb). cbv zeta in Hb.
  destruct (Spec.sendOne contact message w) as [[r w1] e1].
  specialize (IH w1). destruct (Spec.sendAll contacts message w1) as [[rs w2] e2].
  cbn [fst snd] in *. by constructor.
Qed.

(** On results that carry a boolean [success], the two filters of the
    route count the results with [success: true] and with [success: false]. *)
Lemma count_by_success (results : list JsValue) :
  Forall (fun r => exists b, prop r "success" = JBool b) results ->
  List.filter succeeded results = List.filter (success_is true) results
  /\ List.filter (fun r => negb (succeeded r)) results
     = List.filter (success_is false) results.
Proof.
  intros Hb. rewrite List.Forall_forall in Hb.
  split; apply List.filter_ext_in; intros r Hr;
    destruct (Hb r Hr) as [b Hs]; unfold succeeded, success_is; rewrite Hs;
    by destruct b.
Qed.

Lemma alert_response_run (contacts location timestamp userName : JsValue) message st :
  compose_alert timestamp location userName = Some message ->
  Forall (fun contact => Spec.dispatchable contact = true) (elements contacts) ->
  let run := Spec.sendAll (elements contacts) message (world st) in
  let results := run.1.1 in
  alert_response contacts location timestamp userName st
  = (Normal
       (mkResponse 200
          (JObj [(lit "success", JBool true);
                 (lit "message",
                  JStr (lit "Alerts sent: "
                        ++ count_toString (length (List.filter succeeded results))
                        ++ lit " successful, "
                        ++ count_toString
                             (length (List.filter (fun r => negb (succeeded r)) results))
                        ++ lit " failed"));
                 (lit "results", JArr results);
                 (lit "timestamp", JStr (Date_toISOString (Date_now run.1.2).1))])),
     mkState (recentAlerts st) (Date_now run.1.2).2 (trace st ++ run.2)).
Proof.
  intros Hm Hc. cbv zeta. unfold alert_response, bind at 1. rewrite Hm.
  cbn [lift_option ret]. unfold bind at 1.
  rewrite (dispatch_sendAll message (elements contacts) Hc [] st).
  cbn [app]. unfold bind, now, ret. cbn [world recentAlerts trace].
  by destruct (Date_now _).
Qed.

(** The text of an alert can always be composed when the location has
    passed its check and neither the timestamp nor the user name is an
    array or an object. *)
Lemma compose_alert_primitive (timestamp location userName : JsValue) :
  location_rejected location = false ->
  is_object timestamp = false ->
  is_object userName = false ->
  is_Some (compose_alert timestamp location userName).
Proof.
  intros Hl Ht Hu. unfold location_rejected in Hl.
  apply orb_false_iff in Hl as [Hl Hlng]. apply orb_false_iff in Hl as [_ Hlat].
  apply negb_false_iff in Hlat, Hlng. unfold compose_alert.
  destruct (prop location "lat") as [| |?|lat|?|?|?]; try discriminate Hlat.
  destruct (prop location "lng") as [| |?|lng|?|?|?]; try discriminate Hlng.
  cbn [ToString mbind option_bind].
  assert (Htime : is_Some (formatted_time timestamp))
    by (destruct timestamp; try discriminate Ht; by eexists).
  destruct Htime as [time ->]. cbn [mbind option_bind].
  assert (Huser : is_Some (ToString (or_else userName (JStr (lit "User"))))).
  { unfold or_else. destruct (truthy userName); [|by eexists].
    destruct userName as [| |[|]|?|?|?|?]; try discriminate Hu; by eexists. }
  destruct Huser as [user ->]. by eexists.
Qed.

(** C5, amended: a request that passes the two checks and the debounce,
    whose text can be composed, and whose contacts are all bare strings or
    objects with a phone string that is not empty, is answered 200 with
    [success: true], the results of all the contacts and the message
    "Alerts sent: N successful, M failed", N and M being the numbers of
    results with [success] true and false; N + M is the number of
    contacts, whatever the number of failures. *)
Theorem send_alert_summary body key message st :
  Spec.fingerprint body = Some key ->
  recentAlerts st !! key = None ->
  compose_alert (prop body "timestamp") (prop body "location") (prop body "userName")
  = Some message ->
  Forall (fun contact => Spec.dispatchable contact = true)
    (elements (prop body "contacts")) ->
  exists (results : list JsValue) (t : Z),
    let N := length (List.filter (success_is true) results) in
    let M := length (List.filter (success_is false) results) in
    response_of (send_alert body st)
    = Some (mkResponse 200
              (JObj [(lit "success", JBool true);
                     (lit "message",
                      JStr (lit "Alerts sent: " ++ count_toString N
                            ++ lit " successful, " ++ count_toString M
                            ++ lit " failed"));
                     (lit "results", JArr results);
                     (lit "timestamp", JStr (Date_toISOString t))]))
    /\ results = (Spec.sendAll (elements (prop body "contacts")) message
                    (world_after_sweep st)).1.1
    /\ length results = length (elements (prop body "contacts"))
    /\ (N + M = length (elements (prop body "contacts")))%nat.
Proof.
  intros Hf Hk Hm Hc. destruct (clock_readings st) as [H1 H2].
  rewrite (send_alert_fresh_run body key st _ _ _ _ Hf Hk H1 H2).
  unfold try_catch. rewrite (alert_response_run _ _ _ _ message _ Hm Hc).
  cbv zeta. cbn [world recentAlerts trace].
  set (run := Spec.sendAll _ message (world_after_sweep st)).
  pose proof (sendAll_success_flags message (elements (prop body "contacts"))
                (world_after_sweep st)) as Hflags.
  fold run in Hflags. destruct (count_by_success _ Hflags) as [HN HM].
  exists run.1.1, (Date_now run.1.2).1. cbv zeta.
  rewrite <- HN, <- HM. split; [reflexivity|]. split; [reflexivity|].
  assert (Hlen : length run.1.1 = length (elements (prop body "contacts")))
    by apply sendAll_length.
  split; [exact Hlen|]. rewrite <- Hlen. apply List.filter_length.
Qed.

(** *** The test route *)

Lemma test_message_string body (s : jsstring) st :
  nullish body = false ->
  prop body "phone" = JStr s ->
  s <> [] ->
  let to := lit "whatsapp:" ++ formatPhoneNumber_string (formatPhoneNumber_string s) in
  let answer := messages_create test_text FROM_NUMBER to (world st) in
  let result := send_report answer.1 in
  test_message body st
  = (Normal (mkResponse 200
               (JObj [(lit "success", prop result "success");
                      (lit "message",
                       JStr (if truthy (prop result "success")
                             then lit "Test message sent!"
                             else lit "Failed to send test message"));
                      (lit "details", result)])),
     mkState (recentAlerts st) answer.2
       (trace st ++ [MessagesCreate test_text FROM_NUMBER to])).
Proof.
  intros Hb Hp Hs. cbv zeta.
  unfold test_message, try_catch, bind, destructure. rewrite Hb. cbn [ret].
  rewrite Hp. destruct s as [|c s]; [done|]. cbn [truthy negb formatPhoneNumber ret].
  by rewrite sendWhatsAppMessage_string.
Qed.

(** C10, amended: the test route checks only that a phone is there. A
    missing or falsy phone is answered 400 "Phone number required" and
    nothing is sent. A phone that is a string and not empty is never
    validated: it is normalized in the route and again in the send
    wrapper, and the provider is called once with the result, whether
    validation would accept the phone or not. A truthy phone that is not
    a string makes the normalization raise: the route answers 500 "Failed
    to send test message" and the provider is not called. *)
Theorem test_message_presence_only body st :
  nullish body = false ->
  (truthy (prop body "phone") = false ->
   test_message body st
   = (Normal (mkResponse 400 (error_body "Phone number required")), st))
  /\ (forall s : jsstring,
        prop body "phone" = JStr s ->
        s <> [] ->
        let to := lit "whatsapp:"
                  ++ formatPhoneNumber_string (formatPhoneNumber_string s) in
        let answer := messages_create test_text FROM_NUMBER to (world st) in
        state_of (test_message body st)
        = mkState (recentAlerts st) answer.2
            (trace st ++ [MessagesCreate test_text FROM_NUMBER to])
        /\ response_of (test_message body st)
           = Some (mkResponse 200
                     (JObj [(lit "success",
                             JBool (match answer.1 with
                                    | Resolved _ _ => true
                                    | Rejected _ => false
                                    end));
                            (lit "message",
                             JStr (match answer.1 with
                                   | Resolved _ _ => lit "Test message sent!"
                                   | Rejected _ => lit "Failed to send test message"
                                   end));
                            (lit "details", send_report answer.1)])))
  /\ (truthy (prop body "phone") = true ->
      (forall s : jsstring, prop body "phone" <> JStr s) ->
      test_message body st
      = (Normal (mkResponse 500 (error_body "Failed to send test message")), st)).
Proof.
  intros Hb. split; [|split].
  - intros Hp. unfold test_message, try_catch, bind at 1, destructure.
    by rewrite Hb, Hp.
  - intros s Hp Hs. cbv zeta.
    rewrite (test_message_string body s st Hb Hp Hs). cbv zeta.
    destruct (messages_create _ _ _ _) as [[sid st_|e] w]; split; reflexivity.
  - intros Hp Hs. unfold test_message, try_catch, bind at 1, destructure.
    rewrite Hb, Hp. cbn [ret negb]. unfold bind at 1.
    destruct (prop body "phone") as [| |b|x|s|elems|fields]; try reflexivity.
    by destruct (Hs s).
Qed.

End Routes.

(** ** The theorems at work on the example runtime *)


Lemma dispatch_isolation_witness :
  let st := Example.start 0 in
  Forall (fun contact => Spec.dispatchable contact = true) Example.three_contacts
  /\ let '(results, w, effects) :=
       Spec.sendAll (rt := Example.runtime) Example.three_contacts Example.text (world st) in
     dispatch (rt := Example.runtime) Example.text Example.three_contacts [] st
     = (Normal results, mkState (recentAlerts st) w (trace st ++ effects))
     /\ length results = length Example.three_contacts.
Proof.
  cbv zeta.
  assert (H : Forall (fun contact => Spec.dispatchable contact = true) Example.three_contacts)
    by (repeat constructor).
  split; [exact H|].
  generalize (dispatch_isolation (rt := Example.runtime) Example.text
                Example.three_contacts (Example.start 0) H).
  destruct (Spec.sendAll (rt := Example.runtime) Example.three_contacts Example.text
              (world (Example.start 0))) as [[results w] effects].
  intros (Hrun & Hlen & _). split; [exact Hrun | exact Hlen].
Defined.

Lemma sweep_after_recording_witness :
  let body := Example.alert (JArr Example.three_contacts) in
  let st := Example.start 1000 in
  Spec.fingerprint (rt := Example.runtime) body = Some Example.key
  /\ forall k (t : Z),
       recentAlerts (state_of (send_alert (rt := Example.runtime) body st)) !! k = Some t ->
       (sweep_time st - five_minutes <= t)%Z.
Proof.
  cbv zeta. split; [reflexivity|].
  apply (sweep_after_recording (rt := Example.runtime)
           (Example.alert (JArr Example.three_contacts)) Example.key
           (Example.start 1000) eq_refl).
  reflexivity.
Defined.

Lemma send_alert_validation_witness :
  let no_location := JObj [(lit "contacts", JArr Example.three_contacts)] in
  send_alert (rt := Example.runtime) (JObj []) (Example.start 0)
  = (Normal (mkResponse 400 (error_body "No contacts provided")), Example.start 0)
  /\ send_alert (rt := Example.runtime) no_location (Example.start 0)
     = (Normal (mkResponse 400 (error_body "Invalid location data")), Example.start 0).
Proof.
  cbv zeta. split.
  - apply (send_alert_validation (rt := Example.runtime) (JObj []) (Example.start 0) eq_refl).
    by left.
  - apply (send_alert_validation (rt := Example.runtime)
             (JObj [(lit "contacts", JArr Example.three_contacts)]) (Example.start 0) eq_refl).
    + intros [H|[H|H]]; discriminate H.
    + by left.
Defined.

Lemma send_alert_summary_witness :
  let body := Example.alert (JArr Example.three_contacts) in
  Spec.fingerprint (rt := Example.runtime) body = Some Example.key
  /\ exists results t,
       response_of (send_alert (rt := Example.runtime) body (Example.start 1000))
       = Some (mkResponse 200
                 (JObj [(lit "success", JBool true);
                        (lit "message",
                         JStr (lit "Alerts sent: "
                               ++ count_toString (length (List.filter (success_is true) results))
                               ++ lit " successful, "
                               ++ count_toString (length (List.filter (success_is false) results))
                               ++ lit " failed"));
                        (lit "results", JArr results);
                        (lit "timestamp", JStr (Date_toISOString (Runtime := Example.runtime) t))]))
       /\ length results = 3%nat.
Proof.
  cbv zeta. split; [reflexivity|].
  destruct (send_alert_summary (rt := Example.runtime)
              (Example.alert (JArr Example.three_contacts)) Example.key Example.text
              (Example.start 1000) eq_refl eq_refl eq_refl)
    as (results & t & Hr & _ & Hlen & _).
  { repeat constructor. }
  exists results, t. split; [exact Hr | exact Hlen].
Defined.

Lemma malformed_contact_internal_error_witness :
  let body := Example.alert (JArr [JStr (lit "+14155551234"); JNull]) in
  Spec.fingerprint (rt := Example.runtime) body = Some Example.key
  /\ response_of (send_alert (rt := Example.runtime) body (Example.start 1000))
     = Some (mkResponse 500 (error_body "Internal server error")).
Proof.
  cbv zeta. split; [reflexivity|].
  apply (malformed_contact_internal_error (rt := Example.runtime)
           (Example.alert (JArr [JStr (lit "+14155551234"); JNull])) Example.key
           (Example.start 1000) eq_refl eq_refl).
  apply Exists_cons_tl, Exists_cons_hd. reflexivity.
Defined.

Lemma test_message_presence_only_witness :
  let body := JObj [(lit "phone", JStr (lit "abc"))] in
  let to := lit "whatsapp:+" in
  validatePhoneNumber_string (lit "abc") = false
  /\ test_message (rt := Example.runtime) (JObj []) (Example.start 0)
     = (Normal (mkResponse 400 (error_body "Phone number required")), Example.start 0)
  /\ trace (state_of (test_message (rt := Example.runtime) body (Example.start 0)))
     = [MessagesCreate test_text (lit "whatsapp:+14155238886") to].
Proof.
  cbv zeta. split; [reflexivity|].
  destruct (test_message_presence_only (rt := Example.runtime) (JObj []) (Example.start 0)
              eq_refl) as (Hmissing & _ & _).
  destruct (test_message_presence_only (rt := Example.runtime)
              (JObj [(lit "phone", JStr (lit "abc"))]) (Example.start 0) eq_refl)
    as (_ & Hstring & _).
  split; [by apply Hmissing|].
  destruct (Hstring (lit "abc") eq_refl) as [-> _]; [discriminate | reflexivity].
Defined.

(** ** Where the code departs from the wording *)


(** C2 as worded fails: a contact [{phone: ""}], whose phone fails
    validation, and a contact [null] each make the loop raise instead of
    yielding a result. *)
Lemma dispatch_raises_on_empty_phone :
  validatePhoneNumber_string [] = false
  /\ dispatch (rt := Example.runtime) Example.text [Example.empty_phone] [] (Example.start 0)
     = (Throw TypeError, Example.start 0)
  /\ dispatch (rt := Example.runtime) Example.text [JNull] [] (Example.start 0)
     = (Throw TypeError, Example.start 0).
Proof. repeat split; reflexivity. Qed.

(** C3 as worded fails: a duplicate is answered before the clean-up, so right
    after its debounce step the Map still holds an entry inserted more than
    five minutes before. *)
Lemma stale_entry_survives_duplicate :
  let body := Example.alert (JArr [JStr (lit "+14155551234")]) in
  let first := send_alert (rt := Example.runtime) body (Example.start 1000) in
  let six_minutes_later := Example.at_clock (1000 + 6 * 60 * 1000) (state_of first) in
  let duplicate := send_alert (rt := Example.runtime) body six_minutes_later in
  response_of duplicate = Some duplicate_response
  /\ recentAlerts (state_of duplicate) !! Example.key = Some 1000%Z
  /\ (1000 < set_time (state_of duplicate) - five_minutes)%Z.
Proof. vm_compute. repeat split; reflexivity. Qed.

(** C5 as worded fails: these requests pass the two checks and are not
    duplicates, yet are answered 500. *)
Lemma valid_request_answered_500 :
  let empty_phone := Example.alert (JArr [Example.empty_phone]) in
  let null_contact := Example.alert (JArr [JStr (lit "+14155551234"); JNull]) in
  Spec.fingerprint (rt := Example.runtime) empty_phone = Some Example.key
  /\ Spec.fingerprint (rt := Example.runtime) null_contact = Some Example.key
  /\ recentAlerts (Example.start 1000) !! Example.key = None
  /\ response_of (send_alert (rt := Example.runtime) empty_phone (Example.start 1000))
     = Some (mkResponse 500 (error_body "Internal server error"))
  /\ response_of (send_alert (rt := Example.runtime) null_contact (Example.start 1000))
     = Some (mkResponse 500 (error_body "Internal server error")).
Proof. vm_compute. repeat split; reflexivity. Qed.

(** C10 as worded fails: the phone [14155551234], a number, is truthy, yet
    the route answers 500 and the provider is not called. *)
Lemma test_message_number_phone :
  let body := JObj [(lit "phone", Example.number_14155551234)] in
  truthy (prop body "phone") = true
  /\ test_message (rt := Example.runtime) body (Example.start 0)
     = (Normal (mkResponse 500 (error_body "Failed to send test message")), Example.start 0)
  /\ trace (state_of (test_message (rt := Example.runtime) body (Example.start 0))) = [].
Proof. repeat split; reflexivity. Qed.

(** * Further properties of the code *)

(** ** [validatePhoneNumber] and [formatPhoneNumber] together *)

Lemma digit_not_whitespace (c : N) : isDigit c = true -> isWhiteSpace c = false.
Proof.
  unfold isDigit, isWhiteSpace. intros [H1 H2]%andb_true_iff.
  apply N.leb_le in H1, H2.
  repeat (apply orb_false_intro);
    first [ apply N.eqb_neq; lia
          | apply andb_false_iff; right; apply N.leb_gt; lia
          | apply andb_false_iff; left; apply N.leb_gt; lia ].
Qed.

Lemma strip_whitespace_fixed (s : jsstring) :
  Forall (fun c => isWhiteSpace c = false) s -> Spec.strip_whitespace s = s.
Proof.
  induction 1 as [|c s Hc _ IH]; [reflexivity|].
  unfold Spec.strip_whitespace. cbn [List.filter]. fold (Spec.strip_whitespace s).
  by rewrite Hc, IH.
Qed.

Lemma digits_of_strip_whitespace (s : jsstring) :
  Spec.digits_of (Spec.strip_whitespace s) = Spec.digits_of s.
Proof.
  induction s as [|c s IH]; [reflexivity|].
  unfold Spec.strip_whitespace, Spec.digits_of in *. cbn [List.filter].
  change ((chr "0" <=? c) && (c <=? chr "9")) with (isDigit c).
  destruct (isWhiteSpace c) eqn:Hw; cbn [negb List.filter].
  - destruct (isDigit c) eqn:Hd; [|exact IH].
    apply digit_not_whitespace in Hd. congruence.
  - change ((chr "0" <=? c) && (c <=? chr "9")) with (isDigit c).
    by rewrite IH.
Qed.

Lemma significant_is_digit (c : N) : chr "1" <= c <= chr "9" -> isDigit c = true.
Proof.
  change (chr "1") with 49. change (chr "9") with 57. intros [H1 H9].
  unfold isDigit. apply andb_true_iff. split; apply N.leb_le; lia.
Qed.

(** What an accepted phone looks like: its digits are those of the pattern,
    and without its whitespace it is those digits, with or without a [+]. *)
Lemma valid_phone_digits (s : jsstring) :
  validatePhoneNumber_string s = true ->
  exists first more,
    Spec.digits_of s = first :: more
    /\ (Spec.strip_whitespace s = first :: more
        \/ Spec.strip_whitespace s = chr "+" :: first :: more)
    /\ chr "1" <= first <= chr "9"
    /\ Forall (fun c => isDigit c = true) more
    /\ (1 <= length more <= 14)%nat.
Proof.
  unfold validatePhoneNumber_string. rewrite strip_whitespace_replace, e164Regex_test.
  intros (first & more & Hs & Hfirst & Hmore & Hlen). exists first, more.
  assert (Hd : Forall (fun c => isDigit c = true) more).
  { eapply Forall_impl; [exact Hmore|]. intros c Hc. by apply isDigit_spec. }
  assert (Hall : Forall (fun c => isDigit c = true) (first :: more)).
  { constructor; [by apply significant_is_digit | done]. }
  split; [|split; [exact Hs | split; [exact Hfirst | split; [exact Hd | exact Hlen]]]].
  rewrite <- digits_of_strip_whitespace.
  destruct Hs as [-> | ->]; [by apply digits_of_fixed|].
  change (Spec.digits_of (chr "+" :: first :: more))
    with (Spec.digits_of (first :: more)).
  by apply digits_of_fixed.
Qed.

(** X1: whitespace anywhere in a phone has no influence on its validation. *)
Theorem validatePhoneNumber_ignores_whitespace (s1 s2 : jsstring) (ws : N) :
  isWhiteSpace ws = true ->
  validatePhoneNumber_string (s1 ++ ws :: s2) = validatePhoneNumber_string (s1 ++ s2).
Proof.
  intros Hws. unfold validatePhoneNumber_string. rewrite !strip_whitespace_replace.
  unfold Spec.strip_whitespace. rewrite !List.filter_app. cbn [List.filter].
  by rewrite Hws.
Qed.

(** X2: an accepted phone contains nothing but digits, whitespace and [+],
    and between 2 and 15 digits; parentheses, dashes and dots make a phone
    invalid. *)
Theorem validatePhoneNumber_accepts_only_phone_chars (s : jsstring) :
  validatePhoneNumber_string s = true ->
  Forall (fun c => phone_char c = true) s
  /\ (2 <= length (Spec.digits_of s) <= 15)%nat.
Proof.
  intros (first & more & Hd & Hs & Hfirst & Hmore & Hlen)%valid_phone_digits.
  split; [|rewrite Hd; cbn [length]; lia].
  apply List.Forall_forall. intros c Hc. unfold phone_char.
  destruct (isWhiteSpace c) eqn:Hw; [by rewrite orb_true_r|].
  assert (Hin : In c (Spec.strip_whitespace s)).
  { apply List.filter_In. by rewrite Hw. }
  assert (Hcases : c = chr "+" \/ In c (first :: more)).
  { destruct Hs as [Hs|Hs]; rewrite Hs in Hin; [by right|].
    destruct Hin as [<-|Hin]; [by left | by right]. }
  destruct Hcases as [->|[<-|Hin']].
  - by rewrite N.eqb_refl, orb_true_r.
  - by rewrite significant_is_digit.
  - rewrite List.Forall_forall in Hmore. by rewrite (Hmore c Hin').
Qed.

(** X3: the normalization of an accepted phone is accepted again, so the
    alert route, which validates before it sends, only ever hands the
    provider destinations of the accepted shape. *)
Theorem validatePhoneNumber_formatPhoneNumber (s : jsstring) :
  validatePhoneNumber_string s = true ->
  validatePhoneNumber_string (formatPhoneNumber_string s) = true.
Proof.
  intros (first & more & Hd & _ & Hfirst & Hmore & Hlen)%valid_phone_digits.
  unfold validatePhoneNumber_string at 1.
  rewrite strip_whitespace_replace, formatPhoneNumber_normalize.
  unfold Spec.normalize. rewrite Hd.
  assert (Hall : Forall (fun c => isDigit c = true) (first :: more)).
  { constructor; [by apply significant_is_digit | done]. }
  apply e164Regex_test. case_decide as H10.
  - rewrite strip_whitespace_fixed.
    + exists (chr "1"), (first :: more). split; [by right|].
      split; [change (chr "1") with 49; change (chr "9") with 57; lia|].
      split; [|lia]. eapply Forall_impl; [exact Hall|]. intros c Hc. by apply isDigit_spec.
    + constructor; [reflexivity|]. constructor; [reflexivity|].
      eapply Forall_impl; [exact Hall|]. intros c. apply digit_not_whitespace.
  - rewrite strip_whitespace_fixed.
    + exists first, more. split; [by right|]. split; [done|].
      split; [|cbn [length] in *; lia].
      eapply Forall_impl; [exact Hmore|]. intros c Hc. by apply isDigit_spec.
    + constructor; [reflexivity|].
      eapply Forall_impl; [exact Hall|]. intros c. apply digit_not_whitespace.
Qed.

(** X4: on an accepted phone the normalization keeps the digits as they
    are. A phone that carries a [+] and does not have exactly ten digits
    comes back as it was, whitespace removed; a phone of exactly ten
    digits gets a 1 before them even when it carried a [+]. *)
Theorem formatPhoneNumber_on_valid (s : jsstring) :
  validatePhoneNumber_string s = true ->
  let digits := Spec.digits_of s in
  (Spec.strip_whitespace s = digits \/ Spec.strip_whitespace s = chr "+" :: digits)
  /\ (length digits <> 10%nat ->
      formatPhoneNumber_string s = chr "+" :: digits
      /\ (Spec.strip_whitespace s = chr "+" :: digits ->
          formatPhoneNumber_string s = Spec.strip_whitespace s))
  /\ (length digits = 10%nat ->
      formatPhoneNumber_string s = chr "+" :: chr "1" :: digits).
Proof.
  intros (first & more & Hd & Hs & _)%valid_phone_digits. cbv zeta.
  rewrite formatPhoneNumber_normalize. unfold Spec.normalize. rewrite Hd.
  split; [exact Hs|]. split.
  - intros Hlen. rewrite decide_False by done. split; [reflexivity|]. by intros ->.
  - intros Hlen. by rewrite decide_True.
Qed.

(** X5: whatever the input, the normalization returns a [+] followed by
    digits only, never by exactly ten of them, and at most two code units
    more than it was given. *)
Theorem formatPhoneNumber_shape (s : jsstring) :
  exists digits,
    formatPhoneNumber_string s = chr "+" :: digits
    /\ Forall (fun c => isDigit c = true) digits
    /\ length digits <> 10%nat
    /\ (length (formatPhoneNumber_string s) <= length s + 2)%nat.
Proof.
  rewrite formatPhoneNumber_normalize.
  destruct (normalize_digits s) as (digits & Hn & Hd & Hlen).
  exists digits. repeat split; try done.
  unfold Spec.normalize. pose proof (List.filter_length_le
    (fun c => (chr "0" <=? c) && (c <=? chr "9")) s) as Hle.
  fold (Spec.digits_of s) in Hle. case_decide; cbn [length]; lia.
Qed.

(** ** The clean-up of the debounce Map *)

(** X6: the clean-up only removes: what it leaves was there before, with
    the same insertion time; and two clean-ups in a row amount to one with
    the later of the two limits, so that a repeated clean-up changes
    nothing. *)
Theorem sweep_entries_compose (m : gmap jsstring Z) (a b : Z) :
  sweep_entries m a ⊆ m
  /\ sweep_entries (sweep_entries m a) b = sweep_entries m (Z.max a b)
  /\ sweep_entries (sweep_entries m a) a = sweep_entries m a.
Proof.
  assert (Hcomp : forall a b,
            sweep_entries (sweep_entries m a) b = sweep_entries m (Z.max a b)).
  { intros a' b'. apply map_eq. intros k. rewrite !sweep_entries_lookup.
    destruct (m !! k) as [t|]; [|done].
    repeat case_bool_decide; try done; lia. }
  split; [|split].
  - apply map_subseteq_spec. intros k t. rewrite sweep_entries_lookup.
    destruct (m !! k) as [t'|]; [|done]. by case_bool_decide.
  - apply Hcomp.
  - rewrite Hcomp. by rewrite Z.max_id.
Qed.

(** ** The routes, whatever the request *)

Section Further.

Context {rt : Runtime}.

Implicit Types (st : ServerState) (body contact : JsValue) (key message : jsstring).

Lemma sendAll_effects message (contacts : list JsValue) (w : World) :
  (Spec.sendAll contacts message w).2 = flat_map (contact_effects message) contacts.
Proof.
  revert w. induction contacts as [|contact contacts IH]; intros w; [reflexivity|].
  cbn [Spec.sendAll flat_map]. unfold Spec.sendOne, contact_effects.
  destruct (validatePhoneNumber_string (Spec.phone_of contact)).
  - destruct (messages_create _ _ _ w) as [[sid st_|e] w'];
      specialize (IH (setTimeout_elapsed 500 w'));
      destruct (Spec.sendAll contacts message (setTimeout_elapsed 500 w')) as [[rs w2] e2];
      cbn [fst snd] in *; by rewrite IH.
  - specialize (IH w). destruct (Spec.sendAll contacts message w) as [[rs w2] e2].
    cbn [fst snd] in *. by rewrite IH.
Qed.

Lemma not_dispatchable_unresolved contact :
  Spec.dispatchable contact = false ->
  nullish contact = true \/ forall s, or_else (prop contact "phone") contact <> JStr s.
Proof.
  intros H. destruct contact as [| |b|x|s'|elems|fields];
    try discriminate H; try (by left);
    try (right; intros s; unfold or_else; cbn [prop truthy]; discriminate).
  right. intros s. unfold or_else. unfold Spec.dispatchable in H.
  destruct (prop (JObj fields) "phone") as [| |b|x|[|c s']|elems|fields'];
    try discriminate H; cbn [truthy]; try discriminate.
  - by destruct b.
  - destruct x; discriminate.
Qed.

(** The loop up to the first contact whose phone does not resolve. *)
Lemma dispatch_stops message (good : list JsValue) (bad : JsValue)
    (rest results : list JsValue) st :
  Forall (fun contact => Spec.dispatchable contact = true) good ->
  Spec.dispatchable bad = false ->
  dispatch message (good ++ bad :: rest) results st
  = (Throw TypeError,
     mkState (recentAlerts st) (Spec.sendAll good message (world st)).1.2
       (trace st ++ (Spec.sendAll good message (world st)).2)).
Proof.
  intros Hgood Hbad. revert results st.
  induction Hgood as [|contact good Hc _ IH]; intros results st.
  - cbn [app Spec.sendAll fst snd].
    rewrite dispatch_unresolved by (by apply not_dispatchable_unresolved).
    rewrite app_nil_r. by destruct st.
  - apply dispatchable_resolved in Hc as (Hn & Hs & Hname).
    cbn [app]. rewrite (dispatch_resolved _ _ _ _ _ _ Hn Hs). cbv zeta.
    cbn [Spec.sendAll]. unfold Spec.sendOne.
    destruct (validatePhoneNumber_string (Spec.phone_of contact)).
    + rewrite IH. cbn [recentAlerts world trace].
      destruct (messages_create message FROM_NUMBER
                  (lit "whatsapp:" ++ formatPhoneNumber_string (Spec.phone_of contact))
                  (world st)) as [[sid st_|m] w]; cbn [fst snd];
        destruct (Spec.sendAll good message (setTimeout_elapsed 500 w)) as [[rs w'] ev];
        cbn [fst snd]; by rewrite <- !app_assoc.
    + rewrite IH. destruct (Spec.sendAll good message (world st)) as [[rs w'] ev].
      reflexivity.
Qed.

Lemma contacts_split (contacts : list JsValue) :
  Forall (fun contact => Spec.dispatchable contact = true) contacts
  \/ exists good bad rest,
       contacts = good ++ bad :: rest
       /\ Forall (fun contact => Spec.dispatchable contact = true) good
       /\ Spec.dispatchable bad = false.
Proof.
  induction contacts as [|contact contacts IH]; [by left|].
  destruct (Spec.dispatchable contact) eqn:Hc.
  - destruct IH as [IH|(good & bad & rest & -> & Hgood & Hbad)].
    + left. by constructor.
    + right. exists (contact :: good), bad, rest. repeat split; [|done]. by constructor.
  - right. by exists [], contact, contacts.
Qed.

(** What the part of the route after the debounce leaves behind. *)
Lemma alert_response_trace (contacts location timestamp userName : JsValue) st :
  exists message sent,
    sent `prefix_of` elements contacts
    /\ Forall (fun contact => Spec.dispatchable contact = true) sent
    /\ trace (snd (try_catch (alert_response contacts location timestamp userName)
                     internal_error st))
       = trace st ++ flat_map (contact_effects message) sent
    /\ forall r,
         fst (try_catch (alert_response contacts location timestamp userName)
                internal_error st) = Normal r ->
         status r = 200%Z -> sent = elements contacts.
Proof.
  destruct (compose_alert timestamp location userName) as [message|] eqn:Hm.
  - exists message.
    destruct (contacts_split (elements contacts))
      as [Hall|(good & bad & rest & Hsplit & Hgood & Hbad)].
    + exists (elements contacts). split; [done|]. split; [done|].
      unfold try_catch. rewrite (alert_response_run _ _ _ _ message st Hm Hall).
      cbv zeta. cbn [snd trace]. by rewrite sendAll_effects.
    + exists good. split; [by exists (bad :: rest)|]. split; [done|].
      assert (Hrun : try_catch (alert_response contacts location timestamp userName)
                       internal_error st
                     = (Normal (mkResponse 500 (error_body "Internal server error")),
                        mkState (recentAlerts st)
                          (Spec.sendAll good message (world st)).1.2
                          (trace st ++ flat_map (contact_effects message) good))).
      { unfold try_catch, alert_response, bind at 1. rewrite Hm. cbn [lift_option ret].
        unfold bind at 1. rewrite Hsplit, (dispatch_stops _ _ _ _ _ _ Hgood Hbad).
        by rewrite sendAll_effects. }
      rewrite Hrun. split; [reflexivity|]. intros r [= <-]. discriminate.
  - exists [], [].
    assert (Hrun : try_catch (alert_response contacts location timestamp userName)
                     internal_error st
                   = (Normal (mkResponse 500 (error_body "Internal server error")), st)).
    { unfold try_catch, alert_response, bind at 1. by rewrite Hm. }
    rewrite Hrun. split; [by apply prefix_nil|]. split; [constructor|].
    cbn [snd flat_map]. rewrite app_nil_r. split; [reflexivity|].
    intros r [= <-]. discriminate.
Qed.

(** X7: with a provider that keeps its contract (it resolves with a
    message instance or rejects with an Error that carries a message),
    [sendWhatsAppMessage] never raises, whatever it is given: it returns an
    object with a boolean [success] and leaves the debounce Map alone; when
    the destination is not a string the provider is not called and the
    report carries the message of the TypeError the engine raises for that
    very value. *)
Theorem sendWhatsAppMessage_never_raises (to : JsValue) message st :
  exists r st',
    sendWhatsAppMessage to message st = (Normal r, st')
    /\ recentAlerts st' = recentAlerts st
    /\ (exists b, prop r "success" = JBool b)
    /\ ((forall s, to <> JStr s) ->
        st' = st
        /\ r = JObj [(lit "success", JBool false);
                     (lit "error", JStr (TypeError_message to))]).
Proof.
  destruct to as [| |b|x|s|elems|fields];
    try (eexists _, st; split; [reflexivity|]; split; [reflexivity|];
         split; [by exists false | done]).
  rewrite sendWhatsAppMessage_string. cbv zeta. eexists _, _.
  split; [reflexivity|]. split; [reflexivity|]. split.
  - destruct (messages_create _ _ _ _) as [[sid st_|e] w]; by eexists.
  - intros H. by destruct (H s).
Qed.

(** X8: on contacts that are strings or objects with a phone string that
    is not empty, what the loop does to the outside world is fixed by the
    contacts alone: for each contact whose phone is accepted, in order, one
    call to the provider followed by one pause of 500 ms, the last contact
    included, and nothing for the others. The answers of the provider
    change neither the later calls nor the pauses. *)
Theorem dispatch_effects message (contacts results : list JsValue) st :
  Forall (fun contact => Spec.dispatchable contact = true) contacts ->
  trace (state_of (dispatch message contacts results st))
  = trace st ++ flat_map (contact_effects message) contacts
  /\ length (flat_map (contact_effects message) contacts)
     = (2 * length (List.filter
                      (fun contact => validatePhoneNumber_string (Spec.phone_of contact))
                      contacts))%nat.
Proof.
  intros Hc. split.
  - rewrite (dispatch_sendAll message contacts Hc results st).
    cbn [state_of snd trace]. by rewrite sendAll_effects.
  - clear Hc. induction contacts as [|contact contacts IH]; [reflexivity|].
    cbn [flat_map List.filter]. rewrite length_app, IH. unfold contact_effects.
    destruct (validatePhoneNumber_string (Spec.phone_of contact)); cbn [length]; lia.
Qed.

(** X9: the loop ends at the first contact that is neither a string nor an
    object with a phone string that is not empty: the contacts before it
    have been handled, and their messages sent, when the TypeError is
    raised; the contacts after it are never reached. *)
Theorem dispatch_stops_at_first_unresolved message (good : list JsValue)
    (bad : JsValue) (rest results : list JsValue) st :
  Forall (fun contact => Spec.dispatchable contact = true) good ->
  Spec.dispatchable bad = false ->
  exists st',
    dispatch message (good ++ bad :: rest) results st = (Throw TypeError, st')
    /\ trace st' = trace st ++ flat_map (contact_effects message) good
    /\ recentAlerts st' = recentAlerts st.
Proof.
  intros Hgood Hbad. eexists. split; [by apply dispatch_stops|].
  cbn [trace recentAlerts]. by rewrite sendAll_effects.
Qed.

(** X10: the alert route answers every request, whatever its body, with
    status 200, 400, 429 or 500; no exception leaves the handler. *)
Theorem send_alert_always_answers body st :
  exists r,
    send_alert body st = (Normal r, state_of (send_alert body st))
    /\ (status r = 200%Z \/ status r = 400%Z \/ status r = 429%Z \/ status r = 500%Z).
Proof.
  assert (Hr : forall r, response_of (send_alert body st) = Some r ->
                         send_alert body st = (Normal r, state_of (send_alert body st))).
  { unfold response_of, state_of. destruct (send_alert body st) as [[r'|e] st']; [|done].
    by intros r [= <-]. }
  destruct (send_alert_cases body st) as [(_ & r & Hresp & Hs)|(key & Hf & Hk)].
  - exists r. split; [by apply Hr|]. tauto.
  - destruct (send_alert_fresh_state body key st Hf Hk) as [(r & Hresp & Hs) _].
    exists r. split; [by apply Hr|]. tauto.
Qed.

(** X11: an alert answered 400 or 429 has changed nothing: no message was
    sent, no pause made, the clock not read, the debounce Map not written. *)
Theorem send_alert_rejection_is_pure body st (r : Response) :
  response_of (send_alert body st) = Some r ->
  status r = 400%Z \/ status r = 429%Z ->
  state_of (send_alert body st) = st.
Proof.
  intros Hr Hs.
  destruct (send_alert_cases body st) as [(Hst & _)|(key & Hf & Hk)]; [done|].
  destruct (send_alert_fresh_state body key st Hf Hk) as [(r' & Hr' & Hs') _].
  rewrite Hr in Hr'. injection Hr' as <-. lia.
Qed.

(** X12: whatever the request and however the route ends, the messages it
    sends go to a leading segment of the contacts, in their order: one
    call to the provider and one pause for each contact of the segment
    whose phone is accepted, always with the same text and sender, and
    nothing else. *)
Theorem send_alert_trace body st :
  exists message sent,
    sent `prefix_of` elements (prop body "contacts")
    /\ Forall (fun contact => Spec.dispatchable contact = true) sent
    /\ trace (state_of (send_alert body st))
       = trace st ++ flat_map (contact_effects message) sent.
Proof.
  destruct (send_alert_cases body st) as [(Hst & _)|(key & Hf & Hk)].
  - exists [], []. split; [by apply prefix_nil|]. split; [constructor|].
    rewrite Hst. cbn [flat_map]. by rewrite app_nil_r.
  - destruct (clock_readings st) as [H1 H2].
    rewrite (send_alert_fresh_run body key st _ _ _ _ Hf Hk H1 H2).
    destruct (alert_response_trace (prop body "contacts") (prop body "location")
                (prop body "timestamp") (prop body "userName")
                (mkState (sweep_entries (<[key := set_time st]> (recentAlerts st))
                            (sweep_time st - five_minutes))
                   (world_after_sweep st) (trace st)))
      as (message & sent & Hpre & Hsent & Htrace & _).
    by exists message, sent.
Qed.

(** X13: a 200 answer means that the loop went through all the contacts:
    each of them was a string or an object with a phone string that is not
    empty, and every one whose phone is accepted had its message handed to
    the provider. *)
Theorem send_alert_200_all_contacts body st (r : Response) :
  response_of (send_alert body st) = Some r ->
  status r = 200%Z ->
  Forall (fun contact => Spec.dispatchable contact = true)
    (elements (prop body "contacts"))
  /\ exists message,
       trace (state_of (send_alert body st))
       = trace st ++ flat_map (contact_effects message) (elements (prop body "contacts")).
Proof.
  intros Hr Hs.
  destruct (send_alert_cases body st) as [(_ & r' & Hr' & Hs')|(key & Hf & Hk)].
  - rewrite Hr in Hr'. injection Hr' as <-. lia.
  - destruct (clock_readings st) as [H1 H2].
    rewrite (send_alert_fresh_run body key st _ _ _ _ Hf Hk H1 H2) in Hr |- *.
    destruct (alert_response_trace (prop body "contacts") (prop body "location")
                (prop body "timestamp") (prop body "userName")
                (mkState (sweep_entries (<[key := set_time st]> (recentAlerts st))
                            (sweep_time st - five_minutes))
                   (world_after_sweep st) (trace st)))
      as (message & sent & _ & Hsent & Htrace & Hall).
    assert (sent = elements (prop body "contacts")) as ->.
    { apply (Hall r); [|done]. unfold response_of in Hr.
      destruct (fst _) as [r'|e]; [|done]. by injection Hr as ->. }
    split; [done | by exists message].
Qed.

(** X14: once a request has passed the debounce its fingerprint is in the
    Map, however the request ends, a 500 included: as long as the entry is
    there, the same request sent again is answered 429 and nothing is sent.
    (The clock is taken not to run more than five minutes between the two
    readings of the first request.) *)
Theorem send_alert_retry_rejected body key st st' :
  Spec.fingerprint body = Some key ->
  recentAlerts st !! key = None ->
  (sweep_time st - five_minutes <= set_time st)%Z ->
  same_alerts (state_of (send_alert body st)) st' ->
  send_alert body st' = (Normal duplicate_response, st').
Proof.
  intros Hf Hk Hclock Hsame. apply (send_alert_duplicate body key st' Hf).
  rewrite Hsame. destruct (send_alert_fresh_state body key st Hf Hk) as [_ ->].
  rewrite sweep_entries_lookup, lookup_insert_eq.
  rewrite bool_decide_eq_false_2 by lia. by eexists.
Qed.

(** X15: the fingerprint is made of the timestamp and the location alone:
    a request with the timestamp and location of a recorded alert is
    answered 429 even when its contacts and user name are others. *)
Theorem send_alert_fingerprint_ignores_contacts body body' key st :
  Spec.fingerprint body = Some key ->
  nullish body' = false ->
  contacts_rejected (prop body' "contacts") = false ->
  prop body' "timestamp" = prop body "timestamp" ->
  prop body' "location" = prop body "location" ->
  is_Some (recentAlerts st !! key) ->
  send_alert body' st = (Normal duplicate_response, st).
Proof.
  intros (_ & _ & Hl & Ha)%fingerprint_inv Hb Hc Ht Hloc Hin.
  apply (send_alert_duplicate body' key st); [|done].
  unfold Spec.fingerprint. by rewrite Hb, Hc, Ht, Hloc, Hl.
Qed.

(** X16: an alert request never changes the insertion time of an entry of
    the debounce Map and adds at most one entry, that of its own
    fingerprint with the clock reading of line 108: every entry found
    after the request was there before, or is that one. *)
Theorem send_alert_keeps_entries body st (k : jsstring) (t : Z) :
  recentAlerts (state_of (send_alert body st)) !! k = Some t ->
  recentAlerts st !! k = Some t
  \/ (Spec.fingerprint body = Some k /\ recentAlerts st !! k = None /\ t = set_time st).
Proof.
  destruct (send_alert_cases body st) as [(-> & _)|(key & Hf & Hk)]; [by left|].
  destruct (send_alert_fresh_state body key st Hf Hk) as [_ ->].
  rewrite sweep_entries_lookup. destruct (decide (key = k)) as [->|Hne].
  - rewrite lookup_insert_eq. case_bool_decide; [done|]. intros [= <-]. by right.
  - rewrite lookup_insert_ne by done.
    destruct (recentAlerts st !! k) as [t'|]; [|done].
    case_bool_decide; [done|]. intros [= <-]. by left.
Qed.

(** X17: the test route answers every request with status 200, 400 or 500,
    never reads or writes the debounce Map, so that test messages are not
    debounced, and calls the provider at most once, without any pause. *)
Theorem test_message_always_answers body st :
  exists r,
    test_message body st = (Normal r, state_of (test_message body st))
    /\ (status r = 200%Z \/ status r = 400%Z \/ status r = 500%Z)
    /\ recentAlerts (state_of (test_message body st)) = recentAlerts st
    /\ (trace (state_of (test_message body st)) = trace st
        \/ exists to,
             trace (state_of (test_message body st))
             = trace st ++ [MessagesCreate test_text FROM_NUMBER to]).
Proof.
  destruct (nullish body) eqn:Hb.
  { assert (Hrun : test_message body st
                   = (Normal (mkResponse 500 (error_body "Failed to send test message")), st)).
    { unfold test_message, try_catch, bind at 1, destructure. by rewrite Hb. }
    rewrite Hrun. eexists. split; [reflexivity|]. split; [by right; right|].
    split; [reflexivity | by left]. }
  destruct (truthy (prop body "phone")) eqn:Hp.
  - destruct (prop body "phone") as [| |b|x|s|elems|fields] eqn:Hphone;
      try discriminate Hp.
    3: { assert (Hs : s <> []) by (by destruct s).
         rewrite (test_message_string body s st Hb Hphone Hs). cbv zeta.
         eexists. split; [reflexivity|]. split; [by left|].
         split; [reflexivity|]. right. by eexists. }
    all: assert (Hrun : test_message body st
                   = (Normal (mkResponse 500 (error_body "Failed to send test message")), st))
      by (unfold test_message, try_catch, bind at 1, destructure;
          rewrite Hb, Hphone; cbn [ret]; rewrite Hp; reflexivity);
      rewrite Hrun; eexists; (split; [reflexivity|]); (split; [by right; right|]);
      (split; [reflexivity | by left]).
  - assert (Hrun : test_message body st
                   = (Normal (mkResponse 400 (error_body "Phone number required")), st)).
    { unfold test_message, try_catch, bind at 1, destructure. by rewrite Hb, Hp. }
    rewrite Hrun. eexists. split; [reflexivity|]. split; [by right; left|].
    split; [reflexivity | by left].
Qed.

End Further.

(** ** The further properties at work on the example runtime *)

Lemma validatePhoneNumber_ignores_whitespace_witness :
  isWhiteSpace 32 = true
  /\ validatePhoneNumber_string (lit "+1" ++ 32 :: lit "4155551234")
     = validatePhoneNumber_string (lit "+1" ++ lit "4155551234").
Proof.
  split; [reflexivity|].
  apply (validatePhoneNumber_ignores_whitespace (lit "+1") (lit "4155551234") 32 eq_refl).
Defined.

Lemma validatePhoneNumber_accepts_only_phone_chars_witness :
  validatePhoneNumber_string (lit "+1 415 555 1234") = true
  /\ Forall (fun c => phone_char c = true) (lit "+1 415 555 1234")
  /\ (2 <= length (Spec.digits_of (lit "+1 415 555 1234")) <= 15)%nat.
Proof.
  split; [reflexivity|].
  apply (validatePhoneNumber_accepts_only_phone_chars (lit "+1 415 555 1234") eq_refl).
Defined.

Lemma validatePhoneNumber_formatPhoneNumber_witness :
  validatePhoneNumber_string (lit "415 555 1234") = true
  /\ validatePhoneNumber_string (formatPhoneNumber_string (lit "415 555 1234")) = true.
Proof.
  split; [reflexivity|].
  apply (validatePhoneNumber_formatPhoneNumber (lit "415 555 1234") eq_refl).
Defined.

Lemma formatPhoneNumber_on_valid_witness :
  validatePhoneNumber_string (lit "+4915112345") = true
  /\ formatPhoneNumber_string (lit "+4915112345") = lit "+14915112345".
Proof.
  split; [reflexivity|].
  destruct (formatPhoneNumber_on_valid (lit "+4915112345") eq_refl) as (_ & _ & Hten).
  apply Hten. reflexivity.
Defined.

Lemma dispatch_effects_witness :
  Forall (fun contact => Spec.dispatchable contact = true) Example.three_contacts
  /\ trace (state_of (dispatch (rt := Example.runtime) Example.text
                        Example.three_contacts [] (Example.start 0)))
     = trace (Example.start 0)
       ++ flat_map (contact_effects (rt := Example.runtime) Example.text)
            Example.three_contacts.
Proof.
  assert (H : Forall (fun contact => Spec.dispatchable contact = true) Example.three_contacts)
    by (repeat constructor).
  split; [exact H|].
  apply (dispatch_effects (rt := Example.runtime) Example.text Example.three_contacts []
           (Example.start 0) H).
Defined.

Lemma dispatch_stops_at_first_unresolved_witness :
  let good := [JStr (lit "+14155551234")] in
  let rest := [JStr (lit "+15555550000")] in
  Forall (fun contact => Spec.dispatchable contact = true) good
  /\ Spec.dispatchable Example.empty_phone = false
  /\ exists st',
       dispatch (rt := Example.runtime) Example.text
         (good ++ Example.empty_phone :: rest) [] (Example.start 0)
       = (Throw TypeError, st')
       /\ trace st'
          = trace (Example.start 0)
            ++ flat_map (contact_effects (rt := Example.runtime) Example.text) good
       /\ recentAlerts st' = recentAlerts (Example.start 0).
Proof.
  cbv zeta.
  assert (H : Forall (fun contact => Spec.dispatchable contact = true)
                [JStr (lit "+14155551234")]) by (repeat constructor).
  split; [exact H|]. split; [reflexivity|].
  apply (dispatch_stops_at_first_unresolved (rt := Example.runtime) Example.text
           [JStr (lit "+14155551234")] Example.empty_phone [JStr (lit "+15555550000")] []
           (Example.start 0) H eq_refl).
Defined.

Lemma send_alert_rejection_is_pure_witness :
  response_of (send_alert (rt := Example.runtime) (JObj []) (Example.start 0))
  = Some (mkResponse 400 (error_body "No contacts provided"))
  /\ state_of (send_alert (rt := Example.runtime) (JObj []) (Example.start 0))
     = Example.start 0.
Proof.
  split; [reflexivity|].
  apply (send_alert_rejection_is_pure (rt := Example.runtime) (JObj []) (Example.start 0)
           (mkResponse 400 (error_body "No contacts provided")) eq_refl).
  by left.
Defined.

Lemma send_alert_200_all_contacts_witness :
  let body := Example.alert (JArr Example.three_contacts) in
  exists r,
    response_of (send_alert (rt := Example.runtime) body (Example.start 1000)) = Some r
    /\ status r = 200%Z
    /\ Forall (fun contact => Spec.dispatchable contact = true)
         (elements (prop body "contacts")).
Proof.
  cbv zeta.
  pose proof (send_alert_200_all_contacts (rt := Example.runtime)
                (Example.alert (JArr Example.three_contacts)) (Example.start 1000)) as H.
  destruct (response_of (send_alert (rt := Example.runtime)
                           (Example.alert (JArr Example.three_contacts))
                           (Example.start 1000))) as [r|] eqn:Hr;
    [|vm_compute in Hr; discriminate Hr].
  assert (Hs : status r = 200%Z)
    by (vm_compute in Hr; injection Hr as <-; reflexivity).
  exists r. split; [reflexivity|]. split; [exact Hs|].
  exact (proj1 (H r eq_refl Hs)).
Defined.

Lemma send_alert_retry_rejected_witness :
  let body := Example.alert (JArr [JStr (lit "+14155551234"); JNull]) in
  let first := send_alert (rt := Example.runtime) body (Example.start 1000) in
  response_of first = Some (mkResponse 500 (error_body "Internal server error"))
  /\ send_alert (rt := Example.runtime) body (state_of first)
     = (Normal duplicate_response, state_of first).
Proof.
  cbv zeta. split; [reflexivity|].
  apply (send_alert_retry_rejected (rt := Example.runtime)
           (Example.alert (JArr [JStr (lit "+14155551234"); JNull])) Example.key
           (Example.start 1000) _ eq_refl eq_refl).
  - vm_compute. discriminate.
  - reflexivity.
Defined.

Lemma send_alert_fingerprint_ignores_contacts_witness :
  let body := Example.alert (JArr Example.three_contacts) in
  let body' :=
    JObj [(lit "contacts", JArr [JStr (lit "+15555550000")]);
          (lit "location", prop body "location");
          (lit "userName", JStr (lit "Bob"))] in
  let st := state_of (send_alert (rt := Example.runtime) body (Example.start 1000)) in
  Spec.fingerprint (rt := Example.runtime) body = Some Example.key
  /\ recentAlerts st !! Example.key = Some 1000%Z
  /\ send_alert (rt := Example.runtime) body' st = (Normal duplicate_response, st).
Proof.
  cbv zeta. split; [reflexivity|].
  assert (Hin : recentAlerts
                  (state_of (send_alert (rt := Example.runtime)
                               (Example.alert (JArr Example.three_contacts))
                               (Example.start 1000)))
                !! Example.key = Some 1000%Z) by (vm_compute; reflexivity).
  split; [exact Hin|].
  apply (send_alert_fingerprint_ignores_contacts (rt := Example.runtime)
           (Example.alert (JArr Example.three_contacts))
           (JObj [(lit "contacts", JArr [JStr (lit "+15555550000")]);
                  (lit "location",
                   prop (Example.alert (JArr Example.three_contacts)) "location");
                  (lit "userName", JStr (lit "Bob"))])
           Example.key _ eq_refl eq_refl eq_refl eq_refl eq_refl).
  rewrite Hin. by eexists.
Defined.

Lemma send_alert_keeps_entries_witness :
  let body := Example.alert (JArr Example.three_contacts) in
  let st := Example.start 1000 in
  recentAlerts (state_of (send_alert (rt := Example.runtime) body st)) !! Example.key
  = Some 1000%Z
  /\ (recentAlerts st !! Example.key = Some 1000%Z
      \/ (Spec.fingerprint (rt := Example.runtime) body = Some Example.key
          /\ recentAlerts st !! Example.key = None
          /\ 1000%Z = set_time st)).
Proof.
  cbv zeta.
  assert (Hin : recentAlerts
                  (state_of (send_alert (rt := Example.runtime)
                               (Example.alert (JArr Example.three_contacts))
                               (Example.start 1000)))
                !! Example.key = Some 1000%Z) by (vm_compute; reflexivity).
  split; [exact Hin|].
  apply (send_alert_keeps_entries (rt := Example.runtime)
           (Example.alert (JArr Example.three_contacts)) (Example.start 1000)
           Example.key 1000%Z Hin).
Defined.

(** ** Two more runs on the example runtime *)

(** A first request whose user name cannot be converted to text passes the
    debounce, records its fingerprint, and is answered 500 before the loop:
    nothing is sent. *)
Lemma first_request_without_text :
  let body :=
    JObj [(lit "contacts", JArr Example.three_contacts);
          (lit "location", JObj [(lit "lat", Example.zero); (lit "lng", Example.zero)]);
          (lit "userName", JObj [(lit "toString", Example.zero)])] in
  let first := send_alert (rt := Example.runtime) body (Example.start 1000) in
  Spec.fingerprint (rt := Example.runtime) body = Some Example.key
  /\ compose_alert (rt := Example.runtime) (prop body "timestamp") (prop body "location")
       (prop body "userName") = None
  /\ response_of first = Some (mkResponse 500 (error_body "Internal server error"))
  /\ trace (state_of first) = []
  /\ recentAlerts (state_of first) !! Example.key = Some 1000%Z.
Proof. vm_compute. repeat split; reflexivity. Qed.

(** The report of [sendWhatsAppMessage] for a destination that is not a
    string carries the text the engine gives for that value: one text for
    [null], another for a number. *)
Lemma sendWhatsAppMessage_report_follows_value :
  fst (sendWhatsAppMessage (rt := Example.runtime) JNull Example.text (Example.start 0))
  = Normal (JObj [(lit "success", JBool false);
                  (lit "error",
                   JStr (lit "Cannot read properties of null (reading 'replace')"))])
  /\ fst (sendWhatsAppMessage (rt := Example.runtime) Example.number_14155551234
            Example.text (Example.start 0))
     = Normal (JObj [(lit "success", JBool false);
                     (lit "error", JStr (lit "phone.replace is not a function"))]).
Proof. split; reflexivity. Qed.
